(** * Pagination scraper: link detector, crawl loop and command lines

    A shallow embedding of [backend/python/pagination_scraper.py] and of the
    command line of [backend/python/scraper.py].

    Python [str] values are embedded as [string]; the embedding is exact on
    ASCII text.  The non-ASCII entries of the keyword table are kept as their
    UTF-8 bytes, and [lower], [\s], [\d] act on the ASCII range only. *)

From Stdlib Require Import String Ascii List ZArith Lia Bool Arith.
From Stdlib Require Import DecimalString Sorted Permutation.
From Stdlib Require DecimalNat DecimalFacts.
Import ListNotations.
Open Scope string_scope.

(** ** Python string operations *)

Definition chr (n : nat) : string := String (ascii_of_nat n) EmptyString.
Definition dq : string := chr 34.
Definition nl : string := chr 10.

Definition isupper (a : ascii) : bool :=
  (65 <=? nat_of_ascii a)%nat && (nat_of_ascii a <=? 90)%nat.

Definition isspace (a : ascii) : bool :=
  ((9 <=? nat_of_ascii a)%nat && (nat_of_ascii a <=? 13)%nat)
  || ((28 <=? nat_of_ascii a)%nat && (nat_of_ascii a <=? 32)%nat).

Definition isdigit_ascii (a : ascii) : bool :=
  (48 <=? nat_of_ascii a)%nat && (nat_of_ascii a <=? 57)%nat.

Definition lower_ascii (a : ascii) : ascii :=
  if isupper a then ascii_of_nat (nat_of_ascii a + 32) else a.

(** [s.lower()] *)
Fixpoint lower (s : string) : string :=
  match s with
  | EmptyString => EmptyString
  | String a s' => String (lower_ascii a) (lower s')
  end.

Fixpoint lstrip (s : string) : string :=
  match s with
  | String a s' => if isspace a then lstrip s' else s
  | EmptyString => EmptyString
  end.

Fixpoint rstrip (s : string) : string :=
  match s with
  | EmptyString => EmptyString
  | String a s' =>
      match rstrip s' with
      | EmptyString => if isspace a then EmptyString else String a EmptyString
      | r => String a r
      end
  end.

(** [s.strip()] *)
Definition strip (s : string) : string := rstrip (lstrip s).

(** truth value of a [str]: non-empty *)
Definition nonempty (s : string) : bool :=
  match s with EmptyString => false | _ => true end.

(** [s.startswith(p)] *)
Definition startswith (s p : string) : bool := prefix p s.

(** [sub in s] *)
Fixpoint contains (sub s : string) : bool :=
  prefix sub s ||
  match s with
  | EmptyString => false
  | String _ s' => contains sub s'
  end.

(** [s.isdigit()] on ASCII text *)
Fixpoint all_digits (s : string) : bool :=
  match s with
  | EmptyString => true
  | String a s' => isdigit_ascii a && all_digits s'
  end.

Definition isdigit (s : string) : bool := nonempty s && all_digits s.

(** [s.replace(old, new)], scanning left to right; [skip] counts the
    characters of a match that are still to be dropped. *)
Fixpoint replace_from (old new : string) (skip : nat) (s : string) : string :=
  match s with
  | EmptyString => EmptyString
  | String a s' =>
      match skip with
      | S k => replace_from old new k s'
      | O =>
          if prefix old s
          then new ++ replace_from old new (String.length old - 1) s'
          else String a (replace_from old new 0 s')
      end
  end.

Fixpoint interleave (new s : string) : string :=
  match s with
  | EmptyString => new
  | String a s' => new ++ String a (interleave new s')
  end.

Definition replace (s old new : string) : string :=
  match old with
  | EmptyString => interleave new s
  | _ => replace_from old new 0 s
  end.

(** [s.split(sep)] for a one-character separator *)
Fixpoint split (sep : ascii) (s : string) : list string :=
  match s with
  | EmptyString => [EmptyString]
  | String a s' =>
      if Ascii.eqb a sep then EmptyString :: split sep s'
      else match split sep s' with
           | [] => [String a EmptyString]
           | w :: ws => String a w :: ws
           end
  end.

(** [sep.join(parts)] *)
Fixpoint join (sep : string) (parts : list string) : string :=
  match parts with
  | [] => EmptyString
  | [p] => p
  | p :: ps => p ++ sep ++ join sep ps
  end.

(** [int(s)] for a string of ASCII digits *)
Fixpoint int_digits (acc : Z) (s : string) : Z :=
  match s with
  | EmptyString => acc
  | String a s' => int_digits (10 * acc + (Z.of_nat (nat_of_ascii a) - 48))%Z s'
  end.

(** [str(n)] for a natural number *)
Definition str_nat (n : nat) : string := NilEmpty.string_of_uint (Nat.to_uint n).

(** ** Regular expressions ([re])

    The patterns of the program use repetition only on single-character
    classes, so the syntax below has [c*], [c+] and [c*?] on classes.  The
    matcher is the backtracking matcher of [re]: alternatives left to right,
    greedy repetitions longest first, lazy ones shortest first. *)

Inductive cset : Type :=
| CChar (a : ascii)            (* a literal character *)
| CDot                         (* .  *)
| CDigit                       (* \d *)
| CSpace                       (* \s *)
| CIn (l : list ascii)         (* [...]  *)
| CNotIn (l : list ascii).     (* [^...] *)

Inductive regex : Type :=
| Eps
| One (c : cset)               (* c   *)
| Star (c : cset)              (* c*  *)
| Plus (c : cset)              (* c+  *)
| LazyStar (c : cset)          (* c*? *)
| Lit (s : string)             (* a literal string, as from re.escape *)
| Cat (r1 r2 : regex)
| Alt (r1 r2 : regex)          (* r1|r2 *)
| Group (r : regex)            (* (r), capturing *)
| Bol                          (* ^ *)
| Eol.                         (* $ *)

Record flags : Type := { IGNORECASE : bool; DOTALL : bool }.

Definition no_flags : flags := {| IGNORECASE := false; DOTALL := false |}.
Definition I_flag : flags := {| IGNORECASE := true; DOTALL := false |}.
Definition IS_flags : flags := {| IGNORECASE := true; DOTALL := true |}.

Definition fold_case (fl : flags) (a : ascii) : ascii :=
  if IGNORECASE fl then lower_ascii a else a.

Definition mem_ascii (fl : flags) (a : ascii) (l : list ascii) : bool :=
  existsb (fun b => Ascii.eqb (fold_case fl a) (fold_case fl b)) l.

Definition cset_match (fl : flags) (c : cset) (a : ascii) : bool :=
  match c with
  | CChar b => Ascii.eqb (fold_case fl a) (fold_case fl b)
  | CDot => DOTALL fl || negb (Ascii.eqb a (ascii_of_nat 10))
  | CDigit => isdigit_ascii a
  | CSpace => isspace a
  | CIn l => mem_ascii fl a l
  | CNotIn l => negb (mem_ascii fl a l)
  end.

(** a literal string at the head of [s]; the rest of [s] on success *)
Fixpoint match_lit (fl : flags) (t s : string) : option string :=
  match t with
  | EmptyString => Some s
  | String b t' =>
      match s with
      | String a s' =>
          if Ascii.eqb (fold_case fl a) (fold_case fl b) then match_lit fl t' s' else None
      | EmptyString => None
      end
  end.

Section Matcher.
Context {R : Type}.
Variable fl : flags.

(** [c*]: the longest run first, then shorter ones *)
Fixpoint star_greedy (c : cset) (i : nat) (s : string)
         (k : nat -> string -> option R) : option R :=
  match s with
  | String a s' =>
      if cset_match fl c a
      then match star_greedy c (S i) s' k with
           | Some x => Some x
           | None => k i s
           end
      else k i s
  | EmptyString => k i s
  end.

(** [c*?]: the empty run first, then longer ones *)
Fixpoint star_lazy (c : cset) (i : nat) (s : string)
         (k : nat -> string -> option R) : option R :=
  match k i s with
  | Some x => Some x
  | None =>
      match s with
      | String a s' => if cset_match fl c a then star_lazy c (S i) s' k else None
      | EmptyString => None
      end
  end.

(** [rmatch r i s caps k]: match [r] at offset [i], where [s] is the text
    from [i] on and [caps] the groups closed so far; [k] continues. *)
Fixpoint rmatch (r : regex) (i : nat) (s : string) (caps : list string)
         (k : nat -> string -> list string -> option R) : option R :=
  match r with
  | Eps => k i s caps
  | One c =>
      match s with
      | String a s' => if cset_match fl c a then k (S i) s' caps else None
      | EmptyString => None
      end
  | Star c => star_greedy c i s (fun i' s' => k i' s' caps)
  | Plus c =>
      match s with
      | String a s' =>
          if cset_match fl c a
          then star_greedy c (S i) s' (fun i' s' => k i' s' caps)
          else None
      | EmptyString => None
      end
  | LazyStar c => star_lazy c i s (fun i' s' => k i' s' caps)
  | Lit t =>
      match match_lit fl t s with
      | Some s' => k (i + String.length t)%nat s' caps
      | None => None
      end
  | Cat r1 r2 => rmatch r1 i s caps (fun i' s' caps' => rmatch r2 i' s' caps' k)
  | Alt r1 r2 =>
      match rmatch r1 i s caps k with
      | Some x => Some x
      | None => rmatch r2 i s caps k
      end
  | Group r1 =>
      rmatch r1 i s caps
        (fun i' s' caps' => k i' s' (caps' ++ [substring 0 (i' - i) s])%list)
  | Bol => match i with O => k i s caps | S _ => None end
  | Eol =>
      if String.eqb s EmptyString || String.eqb s nl then k i s caps else None
  end.
End Matcher.

(** A match found at the head of the text: its length and its groups. *)
Definition match_here (fl : flags) (r : regex) (i : nat) (s : string)
  : option (nat * list string) :=
  rmatch fl r i s [] (fun i' _ caps => Some ((i' - i)%nat, caps)).

(** [re.search(r, s)]: the groups of the leftmost match *)
Fixpoint search_from (fl : flags) (r : regex) (i : nat) (s : string)
  : option (list string) :=
  match match_here fl r i s with
  | Some (_, caps) => Some caps
  | None =>
      match s with
      | String _ s' => search_from fl r (S i) s'
      | EmptyString => None
      end
  end.

Definition re_search (fl : flags) (r : regex) (s : string) : option (list string) :=
  search_from fl r 0 s.

Definition re_found (fl : flags) (r : regex) (s : string) : bool :=
  match re_search fl r s with Some _ => true | None => false end.

(** [re.match(r, s)]: a match at offset 0 *)
Definition re_match (fl : flags) (r : regex) (s : string) : bool :=
  match match_here fl r 0 s with Some _ => true | None => false end.

(** [re.findall(r, s)]: the groups of the successive non-overlapping
    matches; [skip] counts the characters of the last match still to pass. *)
Fixpoint findall_from (fl : flags) (r : regex) (i skip : nat) (s : string)
  : list (list string) :=
  match skip with
  | S k =>
      match s with
      | String _ s' => findall_from fl r (S i) k s'
      | EmptyString => []
      end
  | O =>
      match match_here fl r i s with
      | Some (n, caps) =>
          caps :: match s with
                  | String _ s' => findall_from fl r (S i) (n - 1) s'
                  | EmptyString => []
                  end
      | None =>
          match s with
          | String _ s' => findall_from fl r (S i) 0 s'
          | EmptyString => []
          end
      end
  end.

Definition re_findall (fl : flags) (r : regex) (s : string) : list (list string) :=
  findall_from fl r 0 0 s.

(** [re.sub(r, '', s)]: every non-overlapping match removed *)
Fixpoint sub_from (fl : flags) (r : regex) (i skip : nat) (s : string) : string :=
  match s with
  | EmptyString => EmptyString
  | String a s' =>
      match skip with
      | S k => sub_from fl r (S i) k s'
      | O =>
          match match_here fl r i s with
          | Some (S n, _) => sub_from fl r (S i) n s'
          | _ => String a (sub_from fl r (S i) 0 s')
          end
      end
  end.

Definition re_sub_empty (fl : flags) (r : regex) (s : string) : string :=
  sub_from fl r 0 0 s.

(** Pattern notation *)
Definition lit (s : string) : regex := Lit s.
Fixpoint cat (rs : list regex) : regex :=
  match rs with
  | [] => Eps
  | [r] => r
  | r :: rs' => Cat r (cat rs')
  end.
Fixpoint alt (rs : list regex) : regex :=
  match rs with
  | [] => Eps
  | [r] => r
  | r :: rs' => Alt r (alt rs')
  end.

(** The keyword and URL tables are written as in the source; [compile] reads
    the constructs that occur in them: literal characters, [\s*], [\d+],
    [.*] and a two-character class [[xy]]. *)
Fixpoint compile (p : string) : regex :=
  match p with
  | EmptyString => Eps
  | String a p1 =>
      let literal := Cat (One (CChar a)) (compile p1) in
      match p1 with
      | EmptyString => literal
      | String b p2 =>
          if Ascii.eqb a "." && Ascii.eqb b "*"
          then Cat (Star CDot) (compile p2)
          else
            match p2 with
            | EmptyString => literal
            | String c p3 =>
                if Ascii.eqb a "\" && Ascii.eqb b "s" && Ascii.eqb c "*"
                then Cat (Star CSpace) (compile p3)
                else if Ascii.eqb a "\" && Ascii.eqb b "d" && Ascii.eqb c "+"
                then Cat (Plus CDigit) (compile p3)
                else
                  match p3 with
                  | String d p4 =>
                      if Ascii.eqb a "[" && Ascii.eqb d "]"
                      then Cat (One (CIn [b; c])) (compile p4)
                      else literal
                  | EmptyString => literal
                  end
            end
      end
  end.

(** ** [urllib.parse.urljoin]

    A model of the library function on ASCII URLs without [;params]:
    [urlsplit], the reference resolution of [urljoin] and [urlunsplit]. *)

Record url_parts : Type :=
  { u_scheme : string; u_netloc : string; u_path : string;
    u_query : string; u_fragment : string }.

Definition is_alpha (a : ascii) : bool :=
  isupper a || ((97 <=? nat_of_ascii a)%nat && (nat_of_ascii a <=? 122)%nat).

Definition scheme_char (a : ascii) : bool :=
  is_alpha a || isdigit_ascii a
  || Ascii.eqb a "+" || Ascii.eqb a "-" || Ascii.eqb a ".".

Fixpoint all_chars (p : ascii -> bool) (s : string) : bool :=
  match s with
  | EmptyString => true
  | String a s' => p a && all_chars p s'
  end.

(** [s.split(sep, 1)]: the text before the first [sep] and, when there is
    one, the text after it *)
Fixpoint split_once (sep : ascii) (s : string) : string * option string :=
  match s with
  | EmptyString => (EmptyString, None)
  | String a s' =>
      if Ascii.eqb a sep then (EmptyString, Some s')
      else let (h, t) := split_once sep s' in (String a h, t)
  end.

(** the text before the first character satisfying [stop], and the text
    from that character on *)
Fixpoint span_until (stop : ascii -> bool) (s : string) : string * string :=
  match s with
  | EmptyString => (EmptyString, EmptyString)
  | String a s' =>
      if stop a then (EmptyString, s)
      else let (h, t) := span_until stop s' in (String a h, t)
  end.

Fixpoint lstrip_c0 (s : string) : string :=
  match s with
  | String a s' => if (nat_of_ascii a <=? 32)%nat then lstrip_c0 s' else s
  | EmptyString => EmptyString
  end.

Fixpoint remove_chars (p : ascii -> bool) (s : string) : string :=
  match s with
  | EmptyString => EmptyString
  | String a s' => if p a then remove_chars p s' else String a (remove_chars p s')
  end.

Definition unsafe_byte (a : ascii) : bool :=
  Ascii.eqb a (ascii_of_nat 9) || Ascii.eqb a (ascii_of_nat 13)
  || Ascii.eqb a (ascii_of_nat 10).

Definition urlsplit (url scheme : string) : url_parts :=
  let url := remove_chars unsafe_byte (lstrip_c0 url) in
  let (scheme, url) :=
    match split_once ":" url with
    | (String a h, Some rest) =>
        if is_alpha a && all_chars scheme_char (String a h)
        then (lower (String a h), rest)
        else (scheme, url)
    | _ => (scheme, url)
    end in
  let (netloc, url) :=
    if prefix "//" url
    then span_until (fun a => Ascii.eqb a "/" || Ascii.eqb a "?" || Ascii.eqb a "#")
                    (substring 2 (String.length url - 2) url)
    else (EmptyString, url) in
  let (url, fragment) :=
    match split_once "#" url with
    | (h, Some f) => (h, f)
    | (h, None) => (h, EmptyString)
    end in
  let (url, query) :=
    match split_once "?" url with
    | (h, Some q) => (h, q)
    | (h, None) => (h, EmptyString)
    end in
  {| u_scheme := scheme; u_netloc := netloc; u_path := url;
     u_query := query; u_fragment := fragment |}.

Definition uses_relative : list string :=
  [EmptyString; "ftp"; "http"; "gopher"; "nntp"; "imap"; "wais"; "file"; "https";
   "shttp"; "mms"; "prospero"; "rtsp"; "rtspu"; "sftp"; "svn"; "svn+ssh";
   "ws"; "wss"].

Definition uses_netloc : list string :=
  [EmptyString; "ftp"; "http"; "gopher"; "nntp"; "telnet"; "imap"; "wais"; "file";
   "mms"; "https"; "shttp"; "snews"; "prospero"; "rtsp"; "rtspu"; "rsync";
   "svn"; "svn+ssh"; "sftp"; "nfs"; "git"; "git+ssh"; "ws"; "wss"].

Definition mem_string (s : string) (l : list string) : bool :=
  existsb (String.eqb s) l.

Definition urlunsplit (p : url_parts) : string :=
  let url := u_path p in
  let url :=
    if nonempty (u_netloc p)
       || (nonempty (u_scheme p) && mem_string (u_scheme p) uses_netloc
           && negb (prefix "//" url))
    then "//" ++ u_netloc p
         ++ (if nonempty url && negb (prefix "/" url) then "/" ++ url else url)
    else url in
  let url := if nonempty (u_scheme p) then u_scheme p ++ ":" ++ url else url in
  let url := if nonempty (u_query p) then url ++ "?" ++ u_query p else url in
  if nonempty (u_fragment p) then url ++ "#" ++ u_fragment p else url.

(** the [for seg in segments] loop; [resolved] is kept in reverse *)
Fixpoint resolve_segments (resolved : list string) (segments : list string)
  : list string :=
  match segments with
  | [] => rev resolved
  | seg :: rest =>
      if String.eqb seg ".." then resolve_segments (tl resolved) rest
      else if String.eqb seg "." then resolve_segments resolved rest
      else resolve_segments (seg :: resolved) rest
  end.

(** [segments[1:-1] = filter(None, segments[1:-1])] *)
Definition filter_inner (segments : list string) : list string :=
  match segments with
  | [] => []
  | first :: rest =>
      match rev rest with
      | [] => [first]
      | last :: inner_rev => first :: (filter nonempty (rev inner_rev) ++ [last])%list
      end
  end.

Definition urljoin (base url : string) : string :=
  if negb (nonempty base) then url
  else if negb (nonempty url) then base
  else
    let b := urlsplit base EmptyString in
    let u := urlsplit url (u_scheme b) in
    if negb (String.eqb (u_scheme u) (u_scheme b))
       || negb (mem_string (u_scheme u) uses_relative)
    then url
    else if mem_string (u_scheme u) uses_netloc && nonempty (u_netloc u)
    then urlunsplit u
    else
      let netloc := if mem_string (u_scheme u) uses_netloc
                    then u_netloc b else u_netloc u in
      if negb (nonempty (u_path u))
      then urlunsplit
             {| u_scheme := u_scheme u; u_netloc := netloc; u_path := u_path b;
                u_query := if nonempty (u_query u) then u_query u else u_query b;
                u_fragment := u_fragment u |}
      else
        let base_parts := split "/" (u_path b) in
        let base_parts :=
          if nonempty (last base_parts EmptyString)
          then removelast base_parts else base_parts in
        let segments :=
          if prefix "/" (u_path u) then split "/" (u_path u)
          else filter_inner (base_parts ++ split "/" (u_path u))%list in
        let resolved := resolve_segments [] segments in
        let resolved :=
          if mem_string (last segments EmptyString) ["."; ".."]
          then (resolved ++ [EmptyString])%list else resolved in
        let path := join "/" resolved in
        urlunsplit
          {| u_scheme := u_scheme u; u_netloc := netloc;
             u_path := if nonempty path then path else "/";
             u_query := u_query u; u_fragment := u_fragment u |}.

(** ** The pagination link detector *)

Open Scope Z_scope.

(** Enhanced pagination patterns ([PAGINATION_PATTERNS]) *)
Definition PAGINATION_PATTERNS : list string :=
  [ (* English *)
    "next\s*page"; "next\s*>"; ">\s*next"; "continue"; "load\s*more";
    "view\s*more"; "more\s*results"; "show\s*more"; "see\s*more";
    "pagination"; "next\s*\d+";
    (* Spanish *)
    "siguiente"; "próximo"; "más\s*resultados"; "cargar\s*más";
    (* French *)
    "suivant"; "page\s*suivante"; "plus\s*de\s*résultats";
    (* German *)
    "nächste"; "weiter"; "mehr\s*ergebnisse";
    (* Chinese *)
    "下一页"; "下页"; "更多";
    (* Japanese *)
    "次へ"; "次のページ"; "もっと見る";
    (* Korean *)
    "다음"; "다음\s*페이지"; "더\s*보기";
    (* Russian *)
    "следующая"; "далее"; "еще";
    (* Portuguese *)
    "próxima"; "avançar"; "mais\s*resultados";
    (* Italian *)
    "successiva"; "avanti"; "altri\s*risultati";
    (* Arabic *)
    "التالي"; "المزيد";
    (* Generic *)
    "arrow.*right"; "chevron.*right"; "fa-arrow-right"; "fa-chevron-right" ].

Definition url_pagination_patterns : list string :=
  [ "[?&]page=\d+"; "[?&]p=\d+"; "[?&]offset=\d+"; "[?&]start=\d+";
    "/page/\d+"; "/p\d+"; "page\d+"; "next" ].

Definition exclude_patterns : list string :=
  [ "current"; "active"; "disabled"; "javascript:"; "mailto:"; "tel:"; "#" ].

Definition quotes : list ascii := [ascii_of_nat 34; "'"%char].
Definition not_gt : cset := CNotIn [">"%char].
Definition ws : regex := Star CSpace.

(** The patterns of the program, with the source text above each; there
    [Q] stands for the class of the two quote characters and [^Q] for its
    complement; the blanks inside the groups are not part of
    the patterns. *)

(** [<a[^>]*href\s*=\s*Q( [^Q]* )Q[^>]*>( .*? )</a>] *)
Definition link_pattern : regex :=
  cat [ lit "<a"; Star not_gt; lit "href"; ws; lit "="; ws; One (CIn quotes);
        Group (Star (CNotIn quotes)); One (CIn quotes); Star not_gt; lit ">";
        Group (LazyStar CDot); lit "</a>" ].

(** [<[^>]+>] *)
Definition tag_pattern : regex := cat [ lit "<"; Plus not_gt; lit ">" ].

(** [^\d+$] *)
Definition number_pattern : regex := cat [ Bol; Plus CDigit; Eol ].

(** [<a[^>]*rel\s*=\s*QnextQ[^>]*href\s*=\s*Q] + [re.escape(href)] + [Q] *)
Definition rel_next_pattern (href : string) : regex :=
  cat [ lit "<a"; Star not_gt; lit "rel"; ws; lit "="; ws; One (CIn quotes);
        lit "next"; One (CIn quotes); Star not_gt; lit "href"; ws; lit "="; ws;
        One (CIn quotes); Lit href; One (CIn quotes) ].

(** [<a[^>]*class\s*=\s*Q[^Q]*(?:next|pagination|pager|nav)[^Q]*Q[^>]*href\s*=\s*Q]
    + [re.escape(href)] + [Q] *)
Definition class_pattern (href : string) : regex :=
  cat [ lit "<a"; Star not_gt; lit "class"; ws; lit "="; ws; One (CIn quotes);
        Star (CNotIn quotes);
        alt [ lit "next"; lit "pagination"; lit "pager"; lit "nav" ];
        Star (CNotIn quotes); One (CIn quotes); Star not_gt; lit "href"; ws;
        lit "="; ws; One (CIn quotes); Lit href; One (CIn quotes) ].

(** [<button[^>]*onclick\s*=\s*Q( [^Q]* )Q[^>]*>( .*? )</button>] *)
Definition button_pattern : regex :=
  cat [ lit "<button"; Star not_gt; lit "onclick"; ws; lit "="; ws;
        One (CIn quotes); Group (Star (CNotIn quotes)); One (CIn quotes);
        Star not_gt; lit ">"; Group (LazyStar CDot); lit "</button>" ].

(** [(?:location\.href|window\.location)\s*=\s*Q( [^Q]+ )Q] *)
Definition onclick_url_pattern : regex :=
  cat [ alt [ lit "location.href"; lit "window.location" ]; ws; lit "="; ws;
        One (CIn quotes); Group (Plus (CNotIn quotes)); One (CIn quotes) ].

(** [<form[^>]*action\s*=\s*Q( [^Q]* )Q[^>]*>.*?<input[^>]*name\s*=\s*QpageQ[^>]*value\s*=\s*Q( [^Q]* )Q[^>]*.*?</form>] *)
Definition form_pattern : regex :=
  cat [ lit "<form"; Star not_gt; lit "action"; ws; lit "="; ws;
        One (CIn quotes); Group (Star (CNotIn quotes)); One (CIn quotes);
        Star not_gt; lit ">"; LazyStar CDot;
        lit "<input"; Star not_gt; lit "name"; ws; lit "="; ws;
        One (CIn quotes); lit "page"; One (CIn quotes); Star not_gt;
        lit "value"; ws; lit "="; ws; One (CIn quotes);
        Group (Star (CNotIn quotes)); One (CIn quotes); Star not_gt;
        LazyStar CDot; lit "</form>" ].

(** the two groups of a [findall] result *)
Definition pair_of_groups (caps : list string) : string * string :=
  match caps with
  | [a; b] => (a, b)
  | _ => (EmptyString, EmptyString)
  end.

Definition find_pairs (r : regex) (html : string) : list (string * string) :=
  map pair_of_groups (re_findall IS_flags r html).

(** [re.sub(r'<[^>]+>', '', text).strip()] *)
Definition clean_text (text : string) : string :=
  strip (re_sub_empty no_flags tag_pattern text).

(** [pagination_candidates]: a [dict] from URL to confidence, in insertion
    order *)
Definition candidates : Type := list (string * Z).

Fixpoint dict_get {A : Type} (key : string) (d : list (string * A)) : option A :=
  match d with
  | [] => None
  | (k, v) :: d' => if String.eqb key k then Some v else dict_get key d'
  end.

Definition dict_mem {A : Type} (key : string) (d : list (string * A)) : bool :=
  match dict_get key d with Some _ => true | None => false end.

(** [d[key] = v]: a present key keeps its place *)
Fixpoint dict_set {A : Type} (key : string) (v : A) (d : list (string * A))
  : list (string * A) :=
  match d with
  | [] => [(key, v)]
  | (k, w) :: d' =>
      if String.eqb key k then (k, v) :: d' else (k, w) :: dict_set key v d'
  end.

(** the keys of a dictionary, in insertion order *)
Definition keys {A : Type} (d : list (string * A)) : list string := map fst d.

(** [pattern.replace(r'\s*', ' ').replace(r'\d+', '').strip()] *)
Definition exact_form (pattern : string) : string :=
  strip (replace (replace pattern "\s*" " ") "\d+" EmptyString).

(** the keyword rule: the first pattern found in the text decides *)
Fixpoint keyword_confidence (patterns : list string) (link_text_lower : string) : Z :=
  match patterns with
  | [] => 0
  | pattern :: rest =>
      if re_found no_flags (compile pattern) link_text_lower
      then 10 + (if String.eqb link_text_lower (exact_form pattern) then 5 else 0)
      else keyword_confidence rest link_text_lower
  end.

Definition numeric_confidence (link_text_clean : string) : Z :=
  if re_match no_flags number_pattern link_text_clean
  then 8 + (let page_num := int_digits 0 link_text_clean in
            if (2 <=? page_num) && (page_num <=? 10) then 3 else 0)
  else 0.

Definition url_confidence (href_lower : string) : Z :=
  if existsb (fun pattern => re_found no_flags (compile pattern) href_lower)
             url_pagination_patterns
  then 5 else 0.

Definition rel_next_confidence (html href : string) : Z :=
  if re_found I_flag (rel_next_pattern href) html then 15 else 0.

Definition class_confidence (html href : string) : Z :=
  if re_found I_flag (class_pattern href) html then 7 else 0.

(** the value of [confidence] after the five rules *)
Definition anchor_confidence (html href link_text : string) : Z :=
  let link_text_clean := clean_text link_text in
  let link_text_lower := lower link_text_clean in
  let href_lower := strip (lower href) in
  keyword_confidence PAGINATION_PATTERNS link_text_lower
  + numeric_confidence link_text_clean
  + url_confidence href_lower
  + rel_next_confidence html href
  + class_confidence html href.

Definition should_exclude (href link_text : string) : bool :=
  let link_text_lower := lower (clean_text link_text) in
  let href_lower := strip (lower href) in
  existsb (fun exclude_pattern =>
             re_found no_flags (compile exclude_pattern) href_lower
             || re_found no_flags (compile exclude_pattern) link_text_lower)
          exclude_patterns.

(** the update of the candidates by one anchor *)
Definition record_anchor (base_url full_url : string) (confidence : Z)
           (d : candidates) : candidates :=
  if negb (String.eqb full_url base_url) && negb (dict_mem full_url d)
  then dict_set full_url confidence d
  else match dict_get full_url d with
       | Some old => dict_set full_url (Z.max old confidence) d
       | None => d
       end.

(** the body of [for href, link_text in links] *)
Definition anchor_step (html base_url : string) (d : candidates)
           (link : string * string) : candidates :=
  let (href, link_text) := link in
  if negb (nonempty (strip href)) then d
  else
    let confidence := anchor_confidence html href link_text in
    if negb (should_exclude href link_text) && (0 <? confidence)
    then record_anchor base_url (urljoin base_url href) confidence d
    else d.

(** Strategy 1: links with pagination text patterns *)
Definition anchor_candidates (html base_url : string) : candidates :=
  fold_left (anchor_step html base_url) (find_pairs link_pattern html) [].

(** [if full_url not in pagination_candidates: pagination_candidates[full_url] = v] *)
Definition record_new (full_url : string) (v : Z) (d : candidates) : candidates :=
  if dict_mem full_url d then d else dict_set full_url v d.

(** the body of [for onclick_attr, button_text in buttons] *)
Definition button_step (base_url : string) (d : candidates)
           (button : string * string) : candidates :=
  let (onclick_attr, button_text) := button in
  let button_text_lower := lower (clean_text button_text) in
  if existsb (fun pattern => re_found no_flags (compile pattern) button_text_lower)
             PAGINATION_PATTERNS
  then match re_search no_flags onclick_url_pattern onclick_attr with
       | Some [target] => record_new (urljoin base_url target) 8 d
       | _ => d
       end
  else d.

(** Strategy 2: button elements with pagination indicators *)
Definition button_candidates (html base_url : string) (d : candidates) : candidates :=
  fold_left (button_step base_url) (find_pairs button_pattern html) d.

(** the body of [for action, page_value in forms] *)
Definition form_step (base_url : string) (d : candidates)
           (form : string * string) : candidates :=
  let (action, page_value) := form in
  if isdigit page_value
  then
    let separator := if contains "?" action then "&" else "?" in
    record_new (urljoin base_url (action ++ separator ++ "page=" ++ page_value)) 6 d
  else d.

(** Strategy 3: form submissions that might be pagination *)
Definition form_candidates (html base_url : string) (d : candidates) : candidates :=
  fold_left (form_step base_url) (find_pairs form_pattern html) d.

(** [pagination_candidates] after the three strategies *)
Definition pagination_candidates (html base_url : string) : candidates :=
  form_candidates html base_url
    (button_candidates html base_url (anchor_candidates html base_url)).

(** [sorted(items, key=lambda x: x[1], reverse=True)]: a stable sort,
    highest confidence first *)
Fixpoint insert_desc (x : string * Z) (l : candidates) : candidates :=
  match l with
  | [] => [x]
  | y :: l' => if snd x <? snd y then y :: insert_desc x l' else x :: l
  end.

Fixpoint sorted_desc (l : candidates) : candidates :=
  match l with
  | [] => []
  | x :: l' => insert_desc x (sorted_desc l')
  end.

(** [x] may come before [y] in the ranking *)
Definition ranked_before (x y : string * Z) : Prop := snd y <= snd x.

(** [[url for url, confidence in sorted_candidates[:3] if confidence >= 5]] *)
Definition top_candidates (d : candidates) : candidates :=
  filter (fun c => 5 <=? snd c) (firstn 3 (sorted_desc d)).

Definition find_pagination_links (html base_url : string) : list string :=
  map fst (top_candidates (pagination_candidates html base_url)).

(** the page of the scenario with two numbered links,
    [<a href=Q?page=3Q>3</a><a href=Q?page=2Q>2</a>] with double quotes for [Q] *)
Definition numbered_links_html : string :=
  "<a href=" ++ dq ++ "?page=3" ++ dq ++ ">3</a>"
  ++ "<a href=" ++ dq ++ "?page=2" ++ dq ++ ">2</a>".

(** ** The crawl loop *)

(** JSON values; numbers are integers here, and [JNull] is Python's [None] *)
Unset Elimination Schemes.
Inductive json : Type :=
| JNull
| JBool (b : bool)
| JNum (z : Z)
| JStr (s : string)
| JList (l : list json)
| JDict (d : list (string * json)).
Set Elimination Schemes.

(** truth value of a JSON value *)
Definition truthy (j : json) : bool :=
  match j with
  | JNull => false
  | JBool b => b
  | JNum z => negb (z =? 0)
  | JStr s => nonempty s
  | JList l => match l with [] => false | _ => true end
  | JDict d => match d with [] => false | _ => true end
  end.

(** the [data] of a rendered page *)
Record page_data : Type :=
  { markdown : string; html : string; cleaned_html : string;
    json_data : list (string * json); url : string; title : string;
    media : list (string * json); links : list (string * json);
    metadata : list (string * json) }.

(** [{"success": True, "data": ...}] or [{"success": False, "error": ...}] *)
Inductive scrape_result (A : Type) : Type :=
| Success (data : A)
| Failure (error : string).
Arguments Success {A} data.
Arguments Failure {A} error.

Definition success {A : Type} (r : scrape_result A) : bool :=
  match r with Success _ => true | Failure _ => false end.

(** [metadata.pagination] of the combined document *)
Record pagination_metadata : Type :=
  { pages_scraped : Z; max_pages_requested : Z; urls : list string }.

(** the [data] of the combined document *)
Record combined_data : Type :=
  { c_markdown : string; c_html : string; c_cleaned_html : string;
    c_json : list (string * json); c_url : string; c_title : string;
    c_media : list (string * json); c_links : list (string * json);
    c_pagination : pagination_metadata }.

Definition strong_next : list string :=
  [ "next"; "siguiente"; "suivant"; "nächste"; "下一页"; "次へ"; "다음" ].

(** [<a[^>]*href\s*=\s*Q] + [re.escape(...)] + [Q[^>]*>( .*? )</a>], the
    escaped text being the link without the current URL up to its [?] and
    without the current URL up to its [#] *)
Definition link_text_pattern (current_url link : string) : regex :=
  let target :=
    replace (replace link (hd EmptyString (split "?" current_url)) EmptyString)
            (hd EmptyString (split "#" current_url)) EmptyString in
  cat [ lit "<a"; Star not_gt; lit "href"; ws; lit "="; ws; One (CIn quotes);
        Lit target; One (CIn quotes); Star not_gt; lit ">";
        Group (LazyStar CDot); lit "</a>" ].

(** does some anchor of the page that leads to [link] clearly say next? *)
Definition clearly_next (page_html current_url link : string) : bool :=
  existsb (fun caps =>
             let link_text_clean := lower (clean_text (hd EmptyString caps)) in
             existsb (fun pattern => contains pattern link_text_clean) strong_next)
          (re_findall IS_flags (link_text_pattern current_url link) page_html).

(** smart link selection: the value of [next_url] *)
Definition select_next_url (page_html current_url : string)
           (pagination_links : list string) : option string :=
  match pagination_links with
  | [] => None
  | first :: _ =>
      match find (fun link => clearly_next page_html current_url link && nonempty link)
                 pagination_links with
      | Some link => Some link
      | None => Some first
      end
  end.

(** what the loop does, in order: [visited_urls.add(u)] and the call of
    [scrape_single_page(u, ...)] *)
Inductive event : Type :=
| Visited (u : string)
| Fetched (u : string).

Record crawl_state : Type :=
  { visited_urls : list string;
    all_results : list page_data;
    current_url : option string;
    n_scraped : Z;                   (* the variable [pages_scraped] *)
    trace : list event }.

Inductive body_exit : Type :=
| Return (error : string)            (* [return result] *)
| Break (st : crawl_state)
| Continue (st : crawl_state).

Inductive loop_exit : Type :=
| Returned (error : string)
| Finished (st : crawl_state)
| OutOfFuel (st : crawl_state).

Definition set_add (u : string) (s : list string) : list string :=
  if mem_string u s then s else u :: s.

Section Crawl.
Variable scrape_single_page : string -> json -> scrape_result page_data.
Variable max_pages : Z.
Variable extraction_strategy : json.

(** [while current_url and pages_scraped < max_pages] *)
Definition loop_guard (st : crawl_state) : option string :=
  match current_url st with
  | Some u => if nonempty u && (n_scraped st <? max_pages) then Some u else None
  | None => None
  end.

(** one turn of the loop on the current URL [u] *)
Definition loop_body (st : crawl_state) (u : string) : body_exit :=
  if mem_string u (visited_urls st) then Break st
  else
    let st1 :=
      {| visited_urls := set_add u (visited_urls st);
         all_results := all_results st;
         current_url := current_url st;
         n_scraped := n_scraped st;
         trace := (trace st ++ [Visited u; Fetched u])%list |} in
    match scrape_single_page u extraction_strategy with
    | Failure error =>
        if n_scraped st =? 0 then Return error else Break st1
    | Success data =>
        let pagination_links := find_pagination_links (html data) u in
        Continue
          {| visited_urls := visited_urls st1;
             all_results := (all_results st ++ [data])%list;
             current_url := select_next_url (html data) u pagination_links;
             n_scraped := n_scraped st + 1;
             trace := trace st1 |}
    end.

Fixpoint while_loop (fuel : nat) (st : crawl_state) : loop_exit :=
  match loop_guard st with
  | None => Finished st
  | Some u =>
      match fuel with
      | O => OutOfFuel st
      | S fuel' =>
          match loop_body st u with
          | Return error => Returned error
          | Break st' => Finished st'
          | Continue st' => while_loop fuel' st'
          end
      end
  end.

(** the states at the head of the loop, turn after turn *)
Inductive turns (st0 : crawl_state) : crawl_state -> Prop :=
| turns_start : turns st0 st0
| turns_next st u st' :
    turns st0 st -> loop_guard st = Some u -> loop_body st u = Continue st' ->
    turns st0 st'.

(** the states of a run: those at the head of the loop, and the one a
    [break] leaves *)
Inductive reaches (st0 : crawl_state) : crawl_state -> Prop :=
| reaches_head st : turns st0 st -> reaches st0 st
| reaches_break st u st' :
    turns st0 st -> loop_guard st = Some u -> loop_body st u = Break st' ->
    reaches st0 st'.

(** the turns the loop can still take *)
Definition turns_left (st : crawl_state) : nat := Z.to_nat (max_pages - n_scraped st).
End Crawl.

(** Every fetch of a URL comes after the URL was added to the visited set,
    and no URL is fetched twice. *)
Definition fetch_discipline (t : list event) : Prop :=
  forall pre u post,
    t = (pre ++ Fetched u :: post)%list ->
    In (Visited u) pre /\ ~ In (Fetched u) pre.

Definition initial_state (start_url : string) : crawl_state :=
  {| visited_urls := []; all_results := []; current_url := Some start_url;
     n_scraped := 0; trace := [] |}.

(** [enumerate(l)], counting from [i] *)
Fixpoint enumerate_from {A : Type} (i : nat) (l : list A) : list (nat * A) :=
  match l with
  | [] => []
  | x :: l' => (i, x) :: enumerate_from (S i) l'
  end.

Definition PAGE_BREAK : string := "--- PAGE BREAK ---".
Definition markdown_separator : string := nl ++ nl ++ PAGE_BREAK ++ nl ++ nl.
Definition html_separator : string := nl ++ nl ++ "<!-- PAGE BREAK -->" ++ nl ++ nl.

Definition page_header (i : nat) (r : page_data) : string :=
  "# Page " ++ str_nat (i + 1) ++ " - " ++ title r ++ nl ++ nl
  ++ "*Source: " ++ url r ++ "*" ++ nl ++ nl.

Definition html_header (i : nat) (r : page_data) : string :=
  "<!-- PAGE " ++ str_nat (i + 1) ++ ": " ++ title r ++ " - " ++ url r ++ " -->"
  ++ nl ++ nl.

Definition combined_markdown_parts (results : list page_data) : list string :=
  map (fun ir => page_header (fst ir) (snd ir) ++ markdown (snd ir))
      (enumerate_from 0 results).

Definition combined_markdown (results : list page_data) : string :=
  join markdown_separator (combined_markdown_parts results).

Definition combined_html (results : list page_data) : string :=
  join html_separator
       (map (fun ir => html_header (fst ir) (snd ir) ++ html (snd ir))
            (enumerate_from 0 results)).

Definition combined_cleaned_html (results : list page_data) : string :=
  join html_separator
       (map (fun ir => html_header (fst ir) (snd ir) ++ cleaned_html (snd ir))
            (enumerate_from 0 results)).

(** the body of [for key, value in result["json"].items()] *)
Definition merge_json_item (combined : list (string * json))
           (item : string * json) : list (string * json) :=
  let (key, value) := item in
  match dict_get key combined with
  | Some (JList l) => dict_set key (JList (l ++ [value])%list) combined
  | Some v => dict_set key (JList [v; value]) combined
  | None => dict_set key value combined
  end.

Definition pagination_info (n : Z) (results : list page_data) : json :=
  JDict [ ("pages_scraped", JNum n);
          ("urls_scraped", JList (map (fun r => JStr (url r)) results));
          ("total_results", JNum (Z.of_nat (List.length results))) ].

Definition combined_json (n : Z) (results : list page_data) : list (string * json) :=
  dict_set "pagination_info" (pagination_info n results)
    (fold_left (fun combined r => fold_left merge_json_item (json_data r) combined)
               results []).

(** [{k: v for result in all_results for k, v in result.get(field, {}).items()}] *)
Definition union_dicts (field : page_data -> list (string * json))
           (results : list page_data) : list (string * json) :=
  fold_left (fun acc r => fold_left (fun acc kv => dict_set (fst kv) (snd kv) acc)
                                    (field r) acc)
            results [].

(** the combined document built after the loop *)
Definition combine_results (start_url : string) (max_pages : Z)
           (st : crawl_state) : combined_data :=
  let results := all_results st in
  {| c_markdown := combined_markdown results;
     c_html := combined_html results;
     c_cleaned_html := combined_cleaned_html results;
     c_json := combined_json (n_scraped st) results;
     c_url := start_url;
     c_title := match results with r :: _ => title r | [] => EmptyString end;
     c_media := union_dicts media results;
     c_links := union_dicts links results;
     c_pagination :=
       {| pages_scraped := n_scraped st;
          max_pages_requested := max_pages;
          urls := map url results |} |}.

Definition not_installed : string :=
  "Crawl4AI is not installed. Please install it using: pip install crawl4ai".

(** the loop of [scrape_with_pagination], run from the initial state; the
    loop takes at most [max_pages] turns *)
Definition crawl
           (scrape_single_page : string -> json -> scrape_result page_data)
           (start_url : string) (max_pages : Z) (extraction_strategy : json)
  : loop_exit :=
  while_loop scrape_single_page max_pages extraction_strategy
             (Z.to_nat max_pages) (initial_state start_url).

(** [None] stands for a loop that did not end within its fuel, which does
    not happen ([scrape_with_pagination_returns]).  The page data are typed,
    so the [except Exception] handler of the source has nothing to catch. *)
Definition scrape_with_pagination (available : bool)
           (scrape_single_page : string -> json -> scrape_result page_data)
           (start_url : string) (max_pages : Z) (extraction_strategy : json)
  : option (scrape_result combined_data) :=
  if negb available then Some (Failure not_installed)
  else
    match crawl scrape_single_page start_url max_pages extraction_strategy with
    | Returned error => Some (Failure error)
    | Finished st => Some (Success (combine_results start_url max_pages st))
    | OutOfFuel _ => None
    end.

(** no character of [s] is [c] *)
Definition without_char (c : ascii) (s : string) : bool :=
  all_chars (fun a => negb (Ascii.eqb a c)) s.

(** the number of places of [s] at which [sub] occurs *)
Fixpoint occurrences (sub s : string) : nat :=
  (if prefix sub s then 1 else 0)
  + match s with
    | EmptyString => 0
    | String _ s' => occurrences sub s'
    end.

(** A renderer for examples: a site of pages [http://x.test/1] to
    [http://x.test/n], each with a link to the next one; every other fetch
    fails.  The markdown of page [i] is [texts[i-1]]. *)
Definition sample_page (i : nat) (text : string) : page_data :=
  {| markdown := text;
     html := "<a href='/" ++ str_nat (i + 1) ++ "'>Next page</a>";
     cleaned_html := "<a href='/" ++ str_nat (i + 1) ++ "'>Next page</a>";
     json_data := []; url := "http://x.test/" ++ str_nat i;
     title := "Page " ++ str_nat i; media := []; links := []; metadata := [] |}.

Definition sample_site (texts : list string) (u : string) (strategy : json)
  : scrape_result page_data :=
  match find (fun it => String.eqb u ("http://x.test/" ++ str_nat (S (fst it))))
             (enumerate_from 0 texts) with
  | Some (i, text) => Success (sample_page (S i) text)
  | None => Failure "Failed to scrape URL: Unknown error"
  end.

(** ** The command lines *)

(** what a run of [main] prints and its exit status *)
Inductive printed : Type :=
| PrintedError (error : string)                       (* an argument error *)
| PrintedPage (r : scrape_result page_data)
| PrintedCrawl (r : option (scrape_result combined_data)).

Record process : Type := { stdout : printed; exit_status : Z }.

Definition sign_and_body (s : string) : bool * string :=
  match s with
  | String a r =>
      if Ascii.eqb a "-" then (true, r)
      else if Ascii.eqb a "+" then (false, r)
      else (false, s)
  | EmptyString => (false, s)
  end.

(** digits, with single underscores between digits *)
Fixpoint int_body (after_digit : bool) (s : string) : bool :=
  match s with
  | EmptyString => after_digit
  | String a s' =>
      if isdigit_ascii a then int_body true s'
      else if Ascii.eqb a "_" then after_digit && int_body false s'
      else false
  end.

(** [int(s)]: [None] stands for [ValueError] *)
Definition py_int (s : string) : option Z :=
  let (negative, body) := sign_and_body (strip s) in
  if int_body false body
  then let n := int_digits 0 (remove_chars (Ascii.eqb "_") body) in
       Some (if negative then - n else n)
  else None.

(** the variables of [main] while it reads its arguments *)
Record arguments : Type :=
  { arg_strategy : json; use_pagination : bool; arg_max_pages : Z }.

Section CommandLine.
(** [json.loads]: [None] stands for [json.JSONDecodeError] *)
Variable json_loads : string -> option json.
Variable CRAWL4AI_AVAILABLE : bool.
Variable scrape_single_page : string -> json -> scrape_result page_data.

(** the body of [for i in range(2, len(sys.argv))]; [None] stands for the
    exit on an invalid max-pages value *)
Definition read_argument (a : arguments) (arg : string) : option arguments :=
  if String.eqb arg "--pagination"
  then Some {| arg_strategy := arg_strategy a; use_pagination := true;
               arg_max_pages := arg_max_pages a |}
  else if startswith arg "--max-pages="
  then match py_int (nth 1 (split "=" arg) EmptyString) with
       | Some n => Some {| arg_strategy := arg_strategy a;
                           use_pagination := use_pagination a;
                           arg_max_pages := n |}
       | None => None
       end
  else if negb (truthy (arg_strategy a))
  then match json_loads arg with
       | Some v => Some {| arg_strategy := v;
                           use_pagination := use_pagination a;
                           arg_max_pages := arg_max_pages a |}
       | None => Some a                                  (* Not a JSON argument *)
       end
  else Some a.

Fixpoint read_arguments (a : arguments) (args : list string) : option arguments :=
  match args with
  | [] => Some a
  | arg :: rest =>
      match read_argument a arg with
      | Some a' => read_arguments a' rest
      | None => None
      end
  end.

(** [main] of pagination_scraper.py on [sys.argv] *)
Definition main (argv : list string) : process :=
  match argv with
  | _ :: url :: rest =>
      match read_arguments {| arg_strategy := JNull; use_pagination := false;
                              arg_max_pages := 5 |} rest with
      | None => {| stdout := PrintedError "Invalid max-pages value"; exit_status := 1 |}
      | Some a =>
          if use_pagination a
          then {| stdout := PrintedCrawl
                              (scrape_with_pagination CRAWL4AI_AVAILABLE
                                 scrape_single_page url (arg_max_pages a)
                                 (arg_strategy a));
                  exit_status := 0 |}
          else {| stdout := PrintedPage (scrape_single_page url (arg_strategy a));
                  exit_status := 0 |}
      end
  | _ => {| stdout := PrintedError "URL argument is required"; exit_status := 1 |}
  end.
End CommandLine.

Module Scraper.
Section CommandLine.
Variable json_loads : string -> option json.
Variable scrape_url : string -> json -> scrape_result page_data.

(** [main] of scraper.py on [sys.argv] *)
Definition main (argv : list string) : process :=
  match argv with
  | _ :: url :: rest =>
      match rest with
      | [] => {| stdout := PrintedPage (scrape_url url JNull); exit_status := 0 |}
      | arg :: _ =>
          match json_loads arg with
          | Some v => {| stdout := PrintedPage (scrape_url url v);
                         exit_status := 0 |}
          | None => {| stdout := PrintedError "Invalid extraction strategy JSON";
                       exit_status := 1 |}
          end
      end
  | _ => {| stdout := PrintedError "URL argument is required"; exit_status := 1 |}
  end.
End CommandLine.
End Scraper.

(** ** Notions for the further properties *)

(** a candidate that passes the threshold of the detector *)
Definition confident (p : string * Z) : Prop := 5 <= snd p.

(** the candidates recorded with confidence [c], in their order *)
Definition with_confidence (c : Z) (d : candidates) : candidates :=
  filter (fun p => snd p =? c) d.

(** an anchor of the page that the first strategy records for [base_url] *)
Definition recorded_anchor (html base_url href link_text : string) : Prop :=
  In (href, link_text) (find_pairs link_pattern html)
  /\ nonempty (strip href) = true
  /\ should_exclude href link_text = false
  /\ 0 < anchor_confidence html href link_text
  /\ urljoin base_url href <> base_url.

(** a URL that the third strategy builds from a form of the page *)
Definition form_link (html base_url u : string) : Prop :=
  exists action page_value,
    In (action, page_value) (find_pairs form_pattern html)
    /\ isdigit page_value = true
    /\ u = urljoin base_url
                   (action ++ (if contains "?" action then "&" else "?")
                           ++ "page=" ++ page_value).

(** a page for examples, as [sample_page] but with structured data and media *)
Definition sample_page_with (i : nat) (data media : list (string * json))
  : page_data :=
  let p := sample_page i EmptyString in
  {| markdown := markdown p; html := html p; cleaned_html := cleaned_html p;
     json_data := data; url := url p; title := title p; media := media;
     links := links p; metadata := metadata p |}.

(** the number of fetches in a trace *)
Definition fetches (t : list event) : nat :=
  List.length (filter (fun e => match e with Fetched _ => true | Visited _ => false end) t).

(** the URLs of the fetches in a trace, in their order *)
Definition fetched (t : list event) : list string :=
  flat_map (fun e => match e with Fetched u => [u] | Visited _ => [] end) t.

(** in [us] every URL after the first is a link that the detector returns
    for the page of the URL before it *)
Definition link_chain
           (scrape_single_page : string -> json -> scrape_result page_data)
           (extraction_strategy : json) (us : list string) : Prop :=
  forall before u u' after,
    us = (before ++ u :: u' :: after)%list ->
    exists data,
      scrape_single_page u extraction_strategy = Success data
      /\ In u' (find_pagination_links (html data) u).

(** the values that the pages have under the key [k], in page order *)
Definition values_of (k : string) (results : list page_data) : list json :=
  flat_map (fun r => match dict_get k (json_data r) with
                     | Some v => [v]
                     | None => []
                     end) results.

(** several values of one key as one value: a single value stays as it is,
    more values make a list, which a first value that is a list begins *)
Definition coalesce (values : list json) : option json :=
  match values with
  | [] => None
  | [v] => Some v
  | JList l :: vs => Some (JList (l ++ vs)%list)
  | v :: vs => Some (JList (v :: vs))
  end.

(** a pattern text that [compile] reads as the plain word it is *)
Definition plain_pattern (p : string) : bool :=
  all_chars (fun a => negb (Ascii.eqb a "\" || Ascii.eqb a "." || Ascii.eqb a "[")) p.

(** the pattern of a plain word, character after character *)
Fixpoint literal_chain (p : string) : regex :=
  match p with
  | EmptyString => Eps
  | String a p' => Cat (One (CChar a)) (literal_chain p')
  end.

(** a text without either quote character *)
Definition quote_free (s : string) : bool :=
  all_chars (fun a => negb (existsb (Ascii.eqb a) quotes)) s.

(** a pattern without capturing groups *)
Fixpoint group_free (r : regex) : bool :=
  match r with
  | Cat r1 r2 | Alt r1 r2 => group_free r1 && group_free r2
  | Group _ => false
  | _ => true
  end.

(** a match whose first group has neither quote character *)
Definition head_quote_free (x : option (nat * list string)) : Prop :=
  match x with
  | Some (_, g :: _) => quote_free g = true
  | Some (_, []) => False
  | None => True
  end.

(** * Properties *)

(** ** The candidates dictionary *)

Section Dict.
Context {A : Type}.
Implicit Types (d : list (string * A)) (k : string) (v : A).

Lemma dict_get_set_same k v d : dict_get k (dict_set k v d) = Some v.
Proof.
  induction d as [|[k' w] d IH]; simpl.
  - now rewrite String.eqb_refl.
  - destruct (String.eqb k k') eqn:E; simpl; rewrite E; auto.
Qed.

Lemma dict_get_set_other k k' v d :
  k <> k' -> dict_get k (dict_set k' v d) = dict_get k d.
Proof.
  intros Hne. induction d as [|[k0 w] d IH]; simpl.
  - apply String.eqb_neq in Hne. now rewrite Hne.
  - destruct (String.eqb k' k0) eqn:E; simpl.
    + apply String.eqb_eq in E. subst k0.
      apply String.eqb_neq in Hne. now rewrite Hne.
    + now rewrite IH.
Qed.

Lemma dict_get_In k v d : dict_get k d = Some v -> In (k, v) d.
Proof.
  induction d as [|[k' w] d IH]; simpl; [discriminate|].
  destruct (String.eqb k k') eqn:E; intros H.
  - apply String.eqb_eq in E. inversion H. subst. now left.
  - right. auto.
Qed.

Lemma dict_get_None k d : dict_get k d = None <-> ~ In k (keys d).
Proof.
  induction d as [|[k' w] d IH]; simpl.
  - tauto.
  - destruct (String.eqb k k') eqn:E.
    + apply String.eqb_eq in E. subst. split; [discriminate | intros H; exfalso; auto].
    + apply String.eqb_neq in E. rewrite IH. split.
      * intros H [?|?]; [congruence | auto].
      * intros H Hin. apply H. now right.
Qed.

Lemma In_dict_get k v d : NoDup (keys d) -> In (k, v) d -> dict_get k d = Some v.
Proof.
  induction d as [|[k' w] d IH]; simpl; [tauto|].
  intros Hnd [Heq|Hin]; inversion Hnd as [|? ? Hnotin Hnd']; subst.
  - inversion Heq; subst. now rewrite String.eqb_refl.
  - destruct (String.eqb k k') eqn:E; auto.
    apply String.eqb_eq in E. subst k'. exfalso. apply Hnotin.
    change k with (fst (k, v)). now apply in_map.
Qed.

Lemma keys_dict_set k v d :
  keys (dict_set k v d) = if dict_mem k d then keys d else (keys d ++ [k])%list.
Proof.
  unfold dict_mem. induction d as [|[k' w] d IH]; simpl; auto.
  destruct (String.eqb k k') eqn:E; simpl.
  - apply String.eqb_eq in E. now subst.
  - rewrite IH. now destruct (dict_get k d).
Qed.

Lemma NoDup_dict_set k v d : NoDup (keys d) -> NoDup (keys (dict_set k v d)).
Proof.
  intros Hnd. rewrite keys_dict_set. unfold dict_mem.
  destruct (dict_get k d) eqn:E; auto.
  apply dict_get_None in E.
  apply NoDup_rev in Hnd. rewrite <- (rev_involutive (keys d ++ [k])).
  apply NoDup_rev. rewrite rev_app_distr. simpl. constructor; auto.
  now rewrite <- in_rev.
Qed.

Lemma dict_mem_true k d : dict_mem k d = true <-> exists v, dict_get k d = Some v.
Proof.
  unfold dict_mem. destruct (dict_get k d); split; eauto; try discriminate.
  intros [? ?]; discriminate.
Qed.
End Dict.

(** ** The three strategies on the dictionary *)

Lemma record_new_keeps u c u' v (d : candidates) :
  dict_get u d = Some c -> dict_get u (record_new u' v d) = Some c.
Proof.
  intros H. unfold record_new. destruct (dict_mem u' d) eqn:E; auto.
  rewrite dict_get_set_other; auto.
  intros ->. unfold dict_mem in E. now rewrite H in E.
Qed.

Lemma record_new_present u v (d : candidates) :
  dict_mem u d = true -> record_new u v d = d.
Proof. intros H. unfold record_new. now rewrite H. Qed.

Lemma record_new_absent u u' v c (d : candidates) :
  dict_get u d = None -> dict_get u (record_new u' v d) = Some c -> c = v.
Proof.
  unfold record_new. destruct (dict_mem u' d); intros H1 H2; [congruence|].
  destruct (String.eqb u u') eqn:E.
  - apply String.eqb_eq in E. subst. rewrite dict_get_set_same in H2. congruence.
  - apply String.eqb_neq in E. rewrite dict_get_set_other in H2; congruence.
Qed.

Lemma NoDup_record_new u v (d : candidates) :
  NoDup (keys d) -> NoDup (keys (record_new u v d)).
Proof.
  intros H. unfold record_new. destruct (dict_mem u d); auto using NoDup_dict_set.
Qed.

Lemma record_anchor_max base_url u old confidence (d : candidates) :
  dict_get u d = Some old ->
  dict_get u (record_anchor base_url u confidence d) = Some (Z.max old confidence).
Proof.
  intros H. unfold record_anchor, dict_mem. rewrite H. simpl.
  rewrite andb_false_r. apply dict_get_set_same.
Qed.

Lemma record_anchor_grows base_url u c u' confidence (d : candidates) :
  dict_get u d = Some c ->
  exists c', dict_get u (record_anchor base_url u' confidence d) = Some c' /\ c <= c'.
Proof.
  intros H. destruct (string_dec u u') as [<-|Hne].
  - rewrite (record_anchor_max _ _ _ _ _ H). eexists; split; eauto. lia.
  - exists c. split; [|lia]. unfold record_anchor.
    destruct (negb (String.eqb u' base_url) && negb (dict_mem u' d)).
    + now rewrite dict_get_set_other.
    + destruct (dict_get u' d); auto. now rewrite dict_get_set_other.
Qed.

Lemma record_anchor_fresh base_url u confidence (d : candidates) :
  u <> base_url -> dict_get u d = None ->
  dict_get u (record_anchor base_url u confidence d) = Some confidence.
Proof.
  intros Hne H. unfold record_anchor, dict_mem. rewrite H.
  apply String.eqb_neq in Hne. rewrite Hne. simpl. apply dict_get_set_same.
Qed.

Lemma NoDup_record_anchor base_url u confidence (d : candidates) :
  NoDup (keys d) -> NoDup (keys (record_anchor base_url u confidence d)).
Proof.
  intros H. unfold record_anchor.
  destruct (negb (String.eqb u base_url) && negb (dict_mem u d));
    [|destruct (dict_get u d)]; auto using NoDup_dict_set.
Qed.

Lemma record_anchor_not_base base_url u confidence (d : candidates) :
  dict_get base_url d = None ->
  dict_get base_url (record_anchor base_url u confidence d) = None.
Proof.
  intros H. unfold record_anchor.
  destruct (String.eqb u base_url) eqn:E; simpl.
  - apply String.eqb_eq in E. subst. now rewrite H.
  - apply String.eqb_neq in E.
    destruct (negb (dict_mem u d)); [|destruct (dict_get u d)];
      try rewrite dict_get_set_other; auto.
Qed.

Lemma fold_left_invariant {S X : Type} (P : S -> Prop) (f : S -> X -> S) l :
  (forall s x, P s -> P (f s x)) -> forall s, P s -> P (fold_left f l s).
Proof. intros Hf. induction l; simpl; auto. Qed.

Lemma anchor_step_grows html base_url u c link (d : candidates) :
  dict_get u d = Some c ->
  exists c', dict_get u (anchor_step html base_url d link) = Some c' /\ c <= c'.
Proof.
  intros H. unfold anchor_step. destruct link as [href link_text].
  destruct (negb (nonempty (strip href))); [exists c; split; [auto|lia]|].
  destruct (negb (should_exclude href link_text)
            && (0 <? anchor_confidence html href link_text));
    [now apply record_anchor_grows | exists c; split; [auto|lia]].
Qed.

Lemma anchor_fold_grows html base_url u links :
  forall (d : candidates) c,
    dict_get u d = Some c ->
    exists c', dict_get u (fold_left (anchor_step html base_url) links d) = Some c'
               /\ c <= c'.
Proof.
  induction links as [|link links IH]; simpl; intros d c H.
  - exists c. split; [auto|lia].
  - destruct (anchor_step_grows html base_url u c link d H) as (c1 & H1 & Hle).
    destruct (IH _ _ H1) as (c2 & H2 & Hle2). exists c2. split; [auto|lia].
Qed.

Lemma anchor_step_not_base html base_url link (d : candidates) :
  dict_get base_url d = None ->
  dict_get base_url (anchor_step html base_url d link) = None.
Proof.
  intros H. unfold anchor_step. destruct link as [href link_text].
  destruct (negb (nonempty (strip href))); auto.
  destruct (negb (should_exclude href link_text)
            && (0 <? anchor_confidence html href link_text)); auto.
  now apply record_anchor_not_base.
Qed.

(** The anchors never record the base URL. *)
Lemma anchor_candidates_not_base html base_url :
  dict_get base_url (anchor_candidates html base_url) = None.
Proof.
  unfold anchor_candidates.
  apply (fold_left_invariant (fun d => dict_get base_url d = None)); auto.
  intros d link. apply anchor_step_not_base.
Qed.

Lemma button_step_keeps base_url u c button (d : candidates) :
  dict_get u d = Some c -> dict_get u (button_step base_url d button) = Some c.
Proof.
  intros H. unfold button_step. destruct button as [onclick_attr button_text].
  destruct (existsb _ PAGINATION_PATTERNS); auto.
  destruct (re_search no_flags onclick_url_pattern onclick_attr) as [[|t [|? ?]]|];
    auto using record_new_keeps.
Qed.

Lemma button_step_absent base_url u c button (d : candidates) :
  dict_get u d = None -> dict_get u (button_step base_url d button) = Some c -> c = 8.
Proof.
  intros Hn. unfold button_step. destruct button as [onclick_attr button_text].
  destruct (existsb _ PAGINATION_PATTERNS); [|congruence].
  destruct (re_search no_flags onclick_url_pattern onclick_attr) as [[|t [|? ?]]|];
    try congruence.
  now apply record_new_absent.
Qed.

Lemma form_step_keeps base_url u c form (d : candidates) :
  dict_get u d = Some c -> dict_get u (form_step base_url d form) = Some c.
Proof.
  intros H. unfold form_step. destruct form as [action page_value].
  destruct (isdigit page_value); auto using record_new_keeps.
Qed.

Lemma form_step_absent base_url u c form (d : candidates) :
  dict_get u d = None -> dict_get u (form_step base_url d form) = Some c -> c = 6.
Proof.
  intros Hn. unfold form_step. destruct form as [action page_value].
  destruct (isdigit page_value); [|congruence].
  now apply record_new_absent.
Qed.

(** A loop whose steps keep a present entry and give a new one the fixed
    value [v]. *)
Lemma fold_fixed_value {X : Type} (step : candidates -> X -> candidates) (v : Z) u :
  (forall d x c, dict_get u d = Some c -> dict_get u (step d x) = Some c) ->
  (forall d x c, dict_get u d = None -> dict_get u (step d x) = Some c -> c = v) ->
  forall l d,
    (forall c, dict_get u d = Some c -> dict_get u (fold_left step l d) = Some c)
    /\ (forall c, dict_get u d = None -> dict_get u (fold_left step l d) = Some c -> c = v).
Proof.
  intros Hkeep Hnew. induction l as [|x l IH]; simpl; intros d.
  - split; [auto|congruence].
  - destruct (IH (step d x)) as [IH1 IH2]. split.
    + intros c H. auto.
    + intros c Hn Hc. destruct (dict_get u (step d x)) as [c0|] eqn:E.
      * rewrite (IH1 c0 eq_refl) in Hc. inversion Hc; subst. eauto.
      * auto.
Qed.

Lemma button_candidates_keeps html base_url u c d :
  dict_get u d = Some c -> dict_get u (button_candidates html base_url d) = Some c.
Proof.
  apply (fold_fixed_value (button_step base_url) 8 u);
    eauto using button_step_keeps, button_step_absent.
Qed.

Lemma form_candidates_keeps html base_url u c d :
  dict_get u d = Some c -> dict_get u (form_candidates html base_url d) = Some c.
Proof.
  apply (fold_fixed_value (form_step base_url) 6 u);
    eauto using form_step_keeps, form_step_absent.
Qed.

Lemma NoDup_pagination_candidates html base_url :
  NoDup (keys (pagination_candidates html base_url)).
Proof.
  unfold pagination_candidates, form_candidates, button_candidates, anchor_candidates.
  apply (fold_left_invariant (fun d : candidates => NoDup (keys d))).
  { intros d [action page_value] H. unfold form_step.
    destruct (isdigit page_value); auto using NoDup_record_new. }
  apply (fold_left_invariant (fun d : candidates => NoDup (keys d))).
  { intros d [onclick_attr button_text] H. unfold button_step.
    destruct (existsb _ PAGINATION_PATTERNS); auto.
    destruct (re_search no_flags onclick_url_pattern onclick_attr) as [[|t [|? ?]]|];
      auto using NoDup_record_new. }
  apply (fold_left_invariant (fun d : candidates => NoDup (keys d))).
  { intros d [href link_text] H. unfold anchor_step.
    destruct (negb (nonempty (strip href))); auto.
    destruct (negb (should_exclude href link_text)
              && (0 <? anchor_confidence html href link_text));
      auto using NoDup_record_anchor. }
  constructor.
Qed.

(** ** The ranking *)

Lemma insert_desc_perm x l : Permutation (insert_desc x l) (x :: l).
Proof.
  induction l as [|y l IH]; simpl; auto.
  destruct (snd x <? snd y); auto.
  rewrite IH. apply perm_swap.
Qed.

Lemma sorted_desc_perm l : Permutation (sorted_desc l) l.
Proof.
  induction l as [|x l IH]; simpl; auto.
  rewrite insert_desc_perm. now constructor.
Qed.

Lemma insert_desc_sorted x l :
  StronglySorted ranked_before l -> StronglySorted ranked_before (insert_desc x l).
Proof.
  induction 1 as [|y l Hs IH Hall]; simpl.
  - repeat constructor.
  - destruct (snd x <? snd y) eqn:E.
    + constructor; auto.
      rewrite insert_desc_perm.
      constructor; auto. unfold ranked_before. apply Z.ltb_lt in E. lia.
    + apply Z.ltb_ge in E. constructor; [constructor; auto|].
      constructor; [exact E|].
      eapply Forall_impl; [|exact Hall]. unfold ranked_before. intros; lia.
Qed.

Lemma sorted_desc_sorted l : StronglySorted ranked_before (sorted_desc l).
Proof.
  induction l; simpl; [constructor | now apply insert_desc_sorted].
Qed.

Lemma StronglySorted_firstn {X : Type} (R : X -> X -> Prop) n l :
  StronglySorted R l -> StronglySorted R (firstn n l).
Proof.
  intros H. revert n. induction H as [|x l Hs IH Hall]; intros [|n]; simpl;
    try constructor; auto.
  rewrite Forall_forall in *. intros y Hy. apply Hall.
  rewrite <- (firstn_skipn n l). apply in_or_app. now left.
Qed.

Lemma StronglySorted_filter {X : Type} (R : X -> X -> Prop) f l :
  StronglySorted R l -> StronglySorted R (filter f l).
Proof.
  induction 1 as [|x l Hs IH Hall]; simpl; [constructor|].
  destruct (f x); auto. constructor; auto.
  rewrite Forall_forall in *. intros y Hy. apply Hall.
  now apply filter_In in Hy.
Qed.

Lemma In_top_candidates x d :
  In x (top_candidates d) -> In x d /\ 5 <= snd x.
Proof.
  unfold top_candidates. rewrite filter_In. intros [Hin H5]. split.
  - apply (Permutation_in _ (sorted_desc_perm d)).
    rewrite <- (firstn_skipn 3 (sorted_desc d)). apply in_or_app. now left.
  - now apply Z.leb_le.
Qed.

(** What is left out of the first three ranks no higher than any of them. *)
Lemma beyond_top_three x y d :
  In x d -> ~ In x (firstn 3 (sorted_desc d)) ->
  In y (firstn 3 (sorted_desc d)) -> snd x <= snd y.
Proof.
  intros Hx Hnot Hy.
  pose proof (sorted_desc_sorted d) as Hs.
  apply (Permutation_in _ (Permutation_sym (sorted_desc_perm d))) in Hx.
  rewrite <- (firstn_skipn 3 (sorted_desc d)) in Hx, Hs.
  apply in_app_or in Hx. destruct Hx as [Hx|Hx]; [contradiction|].
  revert Hs Hy Hx. generalize (firstn 3 (sorted_desc d)) (skipn 3 (sorted_desc d)).
  induction l as [|z l IH]; simpl; intros l' Hs Hy Hx; [tauto|].
  inversion Hs as [|? ? Hs' Hall]; subst. destruct Hy as [->|Hy].
  - rewrite Forall_forall in Hall. apply (Hall x). apply in_or_app. now right.
  - eauto.
Qed.

(** ** The detector *)

Lemma find_pagination_links_scored html base_url u :
  In u (find_pagination_links html base_url) ->
  exists c, In (u, c) (top_candidates (pagination_candidates html base_url))
            /\ dict_get u (pagination_candidates html base_url) = Some c /\ 5 <= c.
Proof.
  unfold find_pagination_links. rewrite in_map_iff. intros [[u' c] [Heq Hin]].
  simpl in Heq. subst u'. exists c. split; auto.
  destruct (In_top_candidates _ _ Hin) as [Hd H5]. split; auto.
  apply In_dict_get; auto using NoDup_pagination_candidates.
Qed.

(** C5. For every HTML input and base URL the output of the detector has at
    most three entries, each of them a candidate of confidence at least 5,
    and the entries come by confidence, highest first: their confidences
    descend along the list, and a candidate of confidence at least 5 that is
    left out has no higher confidence than any entry. *)
Theorem find_pagination_links_ranked html base_url :
  let d := pagination_candidates html base_url in
  let out := find_pagination_links html base_url in
  (List.length out <= 3)%nat
  /\ (forall u, In u out -> exists c, dict_get u d = Some c /\ 5 <= c)
  /\ (exists ranked,
         out = map fst ranked
         /\ (forall u c, In (u, c) ranked -> dict_get u d = Some c)
         /\ StronglySorted ranked_before ranked)
  /\ (forall u c u' c',
         dict_get u d = Some c -> 5 <= c -> ~ In u out ->
         In u' out -> dict_get u' d = Some c' -> c <= c').
Proof.
  intros d out. repeat split.
  - unfold out, find_pagination_links, top_candidates. rewrite length_map.
    eapply Nat.le_trans; [apply filter_length_le|]. apply firstn_le_length.
  - intros u Hu. destruct (find_pagination_links_scored _ _ _ Hu) as (c & _ & ? & ?).
    eauto.
  - exists (top_candidates d). repeat split.
    + intros u c Hin. destruct (In_top_candidates _ _ Hin) as [Hd _].
      apply In_dict_get; auto. apply NoDup_pagination_candidates.
    + apply StronglySorted_filter, StronglySorted_firstn, sorted_desc_sorted.
  - intros u c u' c' Hu H5 Hout Hu' Hc'.
    destruct (find_pagination_links_scored _ _ _ Hu') as (c1 & Htop & Hget & _).
    fold d in Hget. rewrite Hc' in Hget. inversion Hget; subst c1.
    unfold top_candidates in Htop. apply filter_In in Htop. destruct Htop as [Htop _].
    apply (beyond_top_three (u, c) (u', c') d); auto using dict_get_In.
    intros Hfirst. apply Hout. unfold out, find_pagination_links, top_candidates.
    change u with (fst (u, c)). apply in_map. apply filter_In. split; auto.
    now apply Z.leb_le.
Qed.

(** C10. When a URL recorded from an anchor is produced again by a button
    handler or by a pagination form, its anchor confidence stays as it is:
    the fixed 8 and 6 go to URLs that are not yet candidates, whatever the
    recorded confidence, and only a further anchor raises it, to the maximum. *)
Theorem anchor_confidence_kept html base_url u c :
  dict_get u (anchor_candidates html base_url) = Some c ->
  dict_get u (pagination_candidates html base_url) = Some c
  /\ (forall d button, dict_get u d = Some c ->
                       dict_get u (button_step base_url d button) = Some c)
  /\ (forall d form, dict_get u d = Some c ->
                     dict_get u (form_step base_url d form) = Some c)
  /\ (forall v, record_new u v (anchor_candidates html base_url)
                = anchor_candidates html base_url)
  /\ (forall confidence,
         dict_get u (record_anchor base_url u confidence
                                   (anchor_candidates html base_url))
         = Some (Z.max c confidence)).
Proof.
  intros H. repeat split.
  - unfold pagination_candidates.
    now apply form_candidates_keeps, button_candidates_keeps.
  - intros. now apply button_step_keeps.
  - intros. now apply form_step_keeps.
  - intros v. apply record_new_present. apply dict_mem_true. eauto.
  - intros. now apply record_anchor_max.
Qed.

(** A candidate that no anchor recorded has the fixed confidence of a
    button, 8, or of a form, 6. *)
Lemma fixed_confidence_of_new_candidates html base_url u c :
  dict_get u (anchor_candidates html base_url) = None ->
  dict_get u (pagination_candidates html base_url) = Some c ->
  c = 8 \/ c = 6.
Proof.
  intros Hn Hc. unfold pagination_candidates in Hc.
  destruct (dict_get u (button_candidates html base_url
                          (anchor_candidates html base_url))) as [c0|] eqn:E.
  - rewrite (form_candidates_keeps _ _ _ _ _ E) in Hc. inversion Hc; subst c0.
    left. revert E. unfold button_candidates.
    apply (fold_fixed_value (button_step base_url) 8 u);
      eauto using button_step_keeps, button_step_absent.
  - right. revert Hc. unfold form_candidates.
    apply (fold_fixed_value (form_step base_url) 6 u);
      eauto using form_step_keeps, form_step_absent.
Qed.

(** C2.  The form strategy records a URL without comparing it with the base
    URL: a pagination form that names the page being read sends the detector
    back to the base URL. *)
Theorem form_returns_base_url :
  find_pagination_links
    "<form action='/list'><input name='page' value='2'></form>"
    "http://x.test/list?page=2"
  = ["http://x.test/list?page=2"].
Proof. vm_compute. reflexivity. Qed.

Lemma keyword_confidence_nonneg patterns t : 0 <= keyword_confidence patterns t.
Proof.
  induction patterns as [|p patterns IH]; simpl; [lia|].
  destruct (re_found no_flags (compile p) t); auto.
  destruct (String.eqb t _); lia.
Qed.

Lemma numeric_confidence_nonneg t : 0 <= numeric_confidence t.
Proof.
  unfold numeric_confidence. destruct (re_match _ _ _); [|lia].
  destruct (_ && _); lia.
Qed.

Lemma url_confidence_nonneg h : 0 <= url_confidence h.
Proof. unfold url_confidence. destruct (existsb _ _); lia. Qed.

Lemma class_confidence_nonneg html href : 0 <= class_confidence html href.
Proof. unfold class_confidence. destruct (re_found _ _ _); lia. Qed.

(** An anchor that passes the exclusion and has a positive confidence is a
    candidate with at least that confidence. *)
Lemma anchor_recorded html base_url href link_text links :
  In (href, link_text) links ->
  nonempty (strip href) = true ->
  should_exclude href link_text = false ->
  0 < anchor_confidence html href link_text ->
  urljoin base_url href <> base_url ->
  forall d, exists c,
    dict_get (urljoin base_url href) (fold_left (anchor_step html base_url) links d)
    = Some c
    /\ anchor_confidence html href link_text <= c.
Proof.
  intros Hin Hne Hex Hpos Hbase.
  induction links as [|link links IH]; simpl in *; [tauto|]. intros d.
  destruct Hin as [->|Hin]; [|now apply IH].
  assert (exists c1, dict_get (urljoin base_url href)
                       (anchor_step html base_url d (href, link_text)) = Some c1
                     /\ anchor_confidence html href link_text <= c1)
    as (c1 & H1 & Hle).
  { unfold anchor_step. rewrite Hne, Hex. apply Z.ltb_lt in Hpos. rewrite Hpos. simpl.
    destruct (dict_get (urljoin base_url href) d) as [old|] eqn:E.
    - rewrite (record_anchor_max _ _ _ _ _ E). eexists; split; eauto. lia.
    - rewrite record_anchor_fresh; auto. eexists; split; eauto. lia. }
  destruct (anchor_fold_grows html base_url _ links _ _ H1) as (c2 & H2 & Hle2).
  exists c2. split; [auto|lia].
Qed.

(** A candidate whose confidence is above every other one is ranked first. *)
Lemma strictly_best_first u c (d : candidates) :
  NoDup (keys d) -> dict_get u d = Some c ->
  (forall u' c', u' <> u -> dict_get u' d = Some c' -> c' < c) ->
  exists rest, sorted_desc d = (u, c) :: rest.
Proof.
  intros Hnd Hu Hbest.
  pose proof (sorted_desc_sorted d) as Hs. pose proof (sorted_desc_perm d) as Hp.
  pose proof (dict_get_In _ _ _ Hu) as Hin.
  apply (Permutation_in _ (Permutation_sym Hp)) in Hin.
  destruct (sorted_desc d) as [|[u' c'] rest]; [destruct Hin|].
  destruct Hin as [Heq|Hin]; [inversion Heq; eauto|].
  inversion Hs as [|? ? _ Hall]; subst. rewrite Forall_forall in Hall.
  apply Hall in Hin. unfold ranked_before in Hin. simpl in Hin.
  assert (Hget : dict_get u' d = Some c').
  { apply In_dict_get; auto. apply (Permutation_in _ Hp). now left. }
  destruct (string_dec u' u) as [->|Hne].
  - rewrite Hu in Hget. inversion Hget; subst. eauto.
  - specialize (Hbest _ _ Hne Hget). lia.
Qed.

(** C1, as the program has it.  When the scan for [rel=next] finds the href
    of an anchor, the rule adds 15 to the confidence of that anchor; if the
    anchor is not excluded and does not lead to the base URL, its URL is a
    candidate of confidence at least 15, and it is first in the output when
    every other candidate has a lower confidence. *)
Theorem rel_next_candidate html base_url href link_text :
  In (href, link_text) (find_pairs link_pattern html) ->
  nonempty (strip href) = true ->
  re_found I_flag (rel_next_pattern href) html = true ->
  should_exclude href link_text = false ->
  urljoin base_url href <> base_url ->
  rel_next_confidence html href = 15
  /\ exists c,
      dict_get (urljoin base_url href) (pagination_candidates html base_url) = Some c
      /\ 15 <= anchor_confidence html href link_text <= c
      /\ ((forall u' c',
              u' <> urljoin base_url href ->
              dict_get u' (pagination_candidates html base_url) = Some c' -> c' < c) ->
          hd_error (find_pagination_links html base_url)
          = Some (urljoin base_url href)).
Proof.
  intros Hin Hne Hrel Hex Hbase.
  assert (Hrel15 : rel_next_confidence html href = 15).
  { unfold rel_next_confidence. now rewrite Hrel. }
  split; auto.
  assert (H15 : 15 <= anchor_confidence html href link_text).
  { unfold anchor_confidence. rewrite Hrel15.
    pose proof (keyword_confidence_nonneg PAGINATION_PATTERNS
                  (lower (clean_text link_text))).
    pose proof (numeric_confidence_nonneg (clean_text link_text)).
    pose proof (url_confidence_nonneg (strip (lower href))).
    pose proof (class_confidence_nonneg html href). lia. }
  destruct (anchor_recorded html base_url href link_text _ Hin Hne Hex ltac:(lia) Hbase [])
    as (c & Hc & Hle).
  fold (anchor_candidates html base_url) in Hc.
  exists c. split.
  { unfold pagination_candidates.
    now apply form_candidates_keeps, button_candidates_keeps. }
  split; [lia|]. intros Hbest.
  destruct (strictly_best_first (urljoin base_url href) c
              (pagination_candidates html base_url)) as [rest Hsorted]; auto.
  - apply NoDup_pagination_candidates.
  - unfold pagination_candidates.
    now apply form_candidates_keeps, button_candidates_keeps.
  - unfold find_pagination_links, top_candidates. rewrite Hsorted. simpl.
    assert (H5 : (5 <=? c) = true) by (apply Z.leb_le; lia).
    now rewrite H5.
Qed.

(** A page on which another anchor outranks the anchor with [rel=next]. *)
Lemma rel_next_not_first :
  re_found I_flag (rel_next_pattern "/b")
    "<a rel='next' href='/b'>x</a><a href='/page/2'>Next page</a>" = true
  /\ dict_get "http://x.test/b"
       (pagination_candidates
          "<a rel='next' href='/b'>x</a><a href='/page/2'>Next page</a>"
          "http://x.test/page/1") = Some 15
  /\ find_pagination_links
       "<a rel='next' href='/b'>x</a><a href='/page/2'>Next page</a>"
       "http://x.test/page/1"
     = ["http://x.test/page/2"; "http://x.test/b"].
Proof. vm_compute. repeat split. Qed.

Lemma rel_next_candidate_witness :
  hd_error (find_pagination_links "<a rel='next' href='/page/2'>Next</a>"
                                  "http://x.test/page/1")
  = Some "http://x.test/page/2".
Proof.
  destruct (rel_next_candidate "<a rel='next' href='/page/2'>Next</a>"
              "http://x.test/page/1" "/page/2" "Next")
    as (_ & c & Hc & _ & Hfirst).
  - vm_compute. now left.
  - reflexivity.
  - vm_compute. reflexivity.
  - vm_compute. reflexivity.
  - apply String.eqb_neq. vm_compute. reflexivity.
  - apply Hfirst. intros u' c' Hne.
    replace (urljoin "http://x.test/page/1" "/page/2")
      with "http://x.test/page/2" in Hne by (vm_compute; reflexivity).
    replace (pagination_candidates "<a rel='next' href='/page/2'>Next</a>"
                                   "http://x.test/page/1")
      with [("http://x.test/page/2", 20)] by (vm_compute; reflexivity).
    cbn [dict_get]. apply String.eqb_neq in Hne. rewrite Hne. discriminate.
Defined.

Lemma anchor_confidence_kept_witness :
  dict_get "http://x.test/list?page=2"
    (anchor_candidates
       "<a href='/list?page=2'>older</a><form action='/list'><input name='page' value='2'></form>"
       "http://x.test/list") = Some 5
  /\ dict_get "http://x.test/list?page=2"
       (pagination_candidates
          "<a href='/list?page=2'>older</a><form action='/list'><input name='page' value='2'></form>"
          "http://x.test/list") = Some 5.
Proof.
  split; [vm_compute; reflexivity|].
  refine (proj1 (anchor_confidence_kept
           "<a href='/list?page=2'>older</a><form action='/list'><input name='page' value='2'></form>"
           "http://x.test/list" "http://x.test/list?page=2" 5 _)).
  vm_compute. reflexivity.
Defined.

Lemma anchor_step_qualified html base_url href link_text c (d : candidates) :
  nonempty (strip href) = true ->
  should_exclude href link_text = false ->
  anchor_confidence html href link_text = c -> 0 < c ->
  anchor_step html base_url d (href, link_text)
  = record_anchor base_url (urljoin base_url href) c d.
Proof.
  intros Hne Hex Hc Hpos. unfold anchor_step. rewrite Hne, Hex, Hc.
  apply Z.ltb_lt in Hpos. now rewrite Hpos.
Qed.

(** C3, as the program has it.  On the page with the two numbered links 3
    and 2, for every base URL against which the two hrefs resolve to two
    different URLs other than the base URL, each link is a candidate of
    confidence 16 (8 for the numeric text, 3 for a number from 2 to 10, 5 for
    the URL pattern), and the output has both, in the order of the page. *)
Theorem numbered_links_scenario base_url :
  urljoin base_url "?page=3" <> base_url ->
  urljoin base_url "?page=2" <> base_url ->
  urljoin base_url "?page=2" <> urljoin base_url "?page=3" ->
  anchor_confidence numbered_links_html "?page=3" "3" = 8 + 3 + 5
  /\ anchor_confidence numbered_links_html "?page=2" "2" = 8 + 3 + 5
  /\ pagination_candidates numbered_links_html base_url
     = [(urljoin base_url "?page=3", 16); (urljoin base_url "?page=2", 16)]
  /\ find_pagination_links numbered_links_html base_url
     = [urljoin base_url "?page=3"; urljoin base_url "?page=2"].
Proof.
  intros H3 H2 H23.
  assert (C3 : anchor_confidence numbered_links_html "?page=3" "3" = 16)
    by (vm_compute; reflexivity).
  assert (C2 : anchor_confidence numbered_links_html "?page=2" "2" = 16)
    by (vm_compute; reflexivity).
  assert (Hcands : pagination_candidates numbered_links_html base_url
                   = [(urljoin base_url "?page=3", 16); (urljoin base_url "?page=2", 16)]).
  { unfold pagination_candidates, form_candidates, button_candidates, anchor_candidates.
    replace (find_pairs form_pattern numbered_links_html) with (@nil (string * string))
      by (vm_compute; reflexivity).
    replace (find_pairs button_pattern numbered_links_html) with (@nil (string * string))
      by (vm_compute; reflexivity).
    replace (find_pairs link_pattern numbered_links_html)
      with [("?page=3", "3"); ("?page=2", "2")] by (vm_compute; reflexivity).
    cbn [fold_left].
    rewrite (anchor_step_qualified _ _ "?page=3" "3" 16) by (auto; lia).
    rewrite (anchor_step_qualified _ _ "?page=2" "2" 16) by (auto; lia).
    generalize dependent (urljoin base_url "?page=3").
    generalize dependent (urljoin base_url "?page=2").
    intros u2 H2 u3 H3 H23.
    apply String.eqb_neq in H2, H3, H23.
    unfold record_anchor, dict_mem. simpl. rewrite H3. simpl.
    rewrite H2, H23. reflexivity. }
  repeat split; auto.
  unfold find_pagination_links. rewrite Hcands.
  generalize (urljoin base_url "?page=3") (urljoin base_url "?page=2").
  intros u3 u2. reflexivity.
Qed.

Lemma numbered_links_scenario_witness :
  find_pagination_links numbered_links_html "http://x.test/list"
  = ["http://x.test/list?page=3"; "http://x.test/list?page=2"].
Proof.
  refine (proj2 (proj2 (proj2 (numbered_links_scenario "http://x.test/list" _ _ _))));
    apply String.eqb_neq; vm_compute; reflexivity.
Defined.

(** On the page with the two numbered links the confidence is 16, not 13. *)
Lemma numbered_links_not_13 :
  pagination_candidates numbered_links_html "http://x.test/list"
  = [("http://x.test/list?page=3", 16); ("http://x.test/list?page=2", 16)]
  /\ ~ (forall u c,
          In (u, c) (pagination_candidates numbered_links_html "http://x.test/list") ->
          c = 13).
Proof.
  assert (H : pagination_candidates numbered_links_html "http://x.test/list"
              = [("http://x.test/list?page=3", 16); ("http://x.test/list?page=2", 16)])
    by (vm_compute; reflexivity).
  split; auto. rewrite H. intros Hall.
  specialize (Hall "http://x.test/list?page=3" 16 (or_introl eq_refl)). discriminate.
Qed.





(** ** The crawl loop *)

Lemma mem_string_In s l : mem_string s l = true <-> In s l.
Proof.
  unfold mem_string. rewrite existsb_exists. split.
  - intros (x & Hx & E). apply String.eqb_eq in E. now subst.
  - intros H. exists s. split; auto. apply String.eqb_refl.
Qed.

Lemma In_set_add u s : In u (set_add u s).
Proof.
  unfold set_add. destruct (mem_string u s) eqn:E; [now apply mem_string_In|now left].
Qed.

Lemma set_add_incl u v s : In v s -> In v (set_add u s).
Proof. unfold set_add. destruct (mem_string u s); simpl; auto. Qed.

Section CrawlProperties.
Variable scrape_single_page : string -> json -> scrape_result page_data.
Variable max_pages : Z.
Variable extraction_strategy : json.

Local Abbreviation guard := (loop_guard max_pages).
Local Abbreviation body := (loop_body scrape_single_page extraction_strategy).
Local Abbreviation loop := (while_loop scrape_single_page max_pages extraction_strategy).
Local Abbreviation turns := (turns scrape_single_page max_pages extraction_strategy).
Local Abbreviation reaches := (reaches scrape_single_page max_pages extraction_strategy).
Local Abbreviation remaining := (turns_left max_pages).

Lemma guard_some st u :
  guard st = Some u ->
  current_url st = Some u /\ nonempty u = true /\ n_scraped st < max_pages.
Proof.
  unfold loop_guard. destruct (current_url st) as [v|]; [|discriminate].
  destruct (nonempty v) eqn:E1; [|discriminate].
  destruct (n_scraped st <? max_pages) eqn:E2; [|discriminate].
  simpl. intros H. inversion H; subst. apply Z.ltb_lt in E2. auto.
Qed.

(** A turn that goes on has fetched an unvisited URL with success. *)
Lemma body_continue st u st' :
  body st u = Continue st' ->
  exists data,
    mem_string u (visited_urls st) = false
    /\ scrape_single_page u extraction_strategy = Success data
    /\ visited_urls st' = set_add u (visited_urls st)
    /\ all_results st' = (all_results st ++ [data])%list
    /\ n_scraped st' = n_scraped st + 1
    /\ trace st' = (trace st ++ [Visited u; Fetched u])%list.
Proof.
  unfold loop_body. destruct (mem_string u (visited_urls st)); [discriminate|].
  destruct (scrape_single_page u extraction_strategy) as [data|error].
  - intros H. inversion H; subst; simpl. exists data. repeat split; auto.
  - destruct (n_scraped st =? 0); discriminate.
Qed.

(** A turn that breaks has met a visited URL, or a failed fetch after the
    first page. *)
Lemma body_break st u st' :
  body st u = Break st' ->
  (mem_string u (visited_urls st) = true /\ st' = st)
  \/ (mem_string u (visited_urls st) = false
      /\ (exists error, scrape_single_page u extraction_strategy = Failure error)
      /\ n_scraped st <> 0
      /\ visited_urls st' = set_add u (visited_urls st)
      /\ all_results st' = all_results st
      /\ n_scraped st' = n_scraped st
      /\ trace st' = (trace st ++ [Visited u; Fetched u])%list).
Proof.
  unfold loop_body. destruct (mem_string u (visited_urls st)).
  - intros H. inversion H. auto.
  - destruct (scrape_single_page u extraction_strategy) as [data|error];
      [discriminate|].
    destruct (n_scraped st =? 0) eqn:E; [discriminate|].
    apply Z.eqb_neq in E. intros H. inversion H; subst; simpl.
    right. repeat split; eauto.
Qed.

(** The loop ends within the turns that are left. *)
Lemma while_loop_ends fuel :
  forall st, (remaining st <= fuel)%nat -> forall st', loop fuel st <> OutOfFuel st'.
Proof.
  unfold turns_left.
  induction fuel as [|fuel IH]; intros st Hfuel st'; simpl.
  - destruct (guard st) as [u|] eqn:G; [|discriminate].
    apply guard_some in G. lia.
  - destruct (guard st) as [u|] eqn:G; [|discriminate].
    destruct (body st u) as [error|st1|st1] eqn:B; try discriminate.
    apply IH. apply guard_some in G.
    destruct (body_continue _ _ _ B) as (data & _ & _ & _ & _ & Hn & _). lia.
Qed.

Lemma while_loop_fuel fuel :
  forall fuel' st,
    (remaining st <= fuel)%nat -> (remaining st <= fuel')%nat ->
    loop fuel st = loop fuel' st.
Proof.
  unfold turns_left.
  induction fuel as [|fuel IH]; intros fuel' st Hfuel Hfuel'.
  - simpl. destruct (guard st) as [u|] eqn:G.
    + apply guard_some in G. lia.
    + destruct fuel'; simpl; now rewrite G.
  - simpl. destruct (guard st) as [u|] eqn:G.
    + pose proof (guard_some _ _ G) as (_ & _ & Hlt).
      destruct fuel' as [|fuel']; [lia|]. simpl. rewrite G.
      destruct (body st u) as [error|st1|st1] eqn:B; auto.
      destruct (body_continue _ _ _ B) as (data & _ & _ & _ & _ & Hn & _).
      apply IH; lia.
    + destruct fuel'; simpl; now rewrite G.
Qed.

(** The loop run from a state at its head is the rest of the run. *)
Lemma turns_loop st0 st :
  turns st0 st -> loop (remaining st0) st0 = loop (remaining st) st.
Proof.
  induction 1 as [|st u st' _ IH G B]; auto.
  rewrite IH. pose proof (guard_some _ _ G) as (_ & _ & Hlt).
  destruct (body_continue _ _ _ B) as (data & _ & _ & _ & _ & Hn & _).
  unfold turns_left in *.
  destruct (Z.to_nat (max_pages - n_scraped st)) as [|k] eqn:K; [lia|].
  simpl. rewrite G, B. apply while_loop_fuel; unfold turns_left; lia.
Qed.

Lemma turns_prepend st0 u st1 st :
  guard st0 = Some u -> body st0 u = Continue st1 -> turns st1 st -> turns st0 st.
Proof.
  intros G B. induction 1; [|eapply turns_next; eauto].
  eapply turns_next; eauto. constructor.
Qed.

(** Where the loop ends is a state of the run. *)
Lemma loop_finished_reaches fuel :
  forall st0 st, loop fuel st0 = Finished st -> reaches st0 st.
Proof.
  induction fuel as [|fuel IH]; intros st0 st; simpl.
  - destruct (guard st0); [discriminate|].
    intros H. inversion H; subst. apply reaches_head. constructor.
  - destruct (guard st0) as [u|] eqn:G.
    + destruct (body st0 u) as [error|st1|st1] eqn:B; try discriminate.
      * intros H. inversion H; subst. eapply reaches_break; eauto. constructor.
      * intros H. apply IH in H. destruct H as [st H|st u' st' H G' B'].
        -- apply reaches_head. eapply turns_prepend; eauto.
        -- eapply reaches_break; eauto. eapply turns_prepend; eauto.
    + intros H. inversion H; subst. apply reaches_head. constructor.
Qed.

Lemma discipline_extend t u :
  fetch_discipline t -> ~ In (Fetched u) t ->
  fetch_discipline (t ++ [Visited u; Fetched u]).
Proof.
  intros Hd Hnew pre w post Heq.
  apply app_eq_app in Heq. destruct Heq as [l [[Ht Hpost]|[Hpre Htail]]].
  - destruct l as [|x l]; simpl in Hpost; [discriminate|].
    inversion Hpost; subst x. apply (Hd pre w l). exact Ht.
  - destruct l as [|x [|y l]]; simpl in Htail.
    + discriminate.
    + inversion Htail; subst. split.
      * apply in_or_app. right. now left.
      * intros Hin. apply in_app_or in Hin. destruct Hin as [Hin|[Hin|[]]];
          [contradiction|discriminate].
    + inversion Htail as [[Hx Hy Hl]]. destruct l; discriminate.
Qed.

Lemma crawl_start_invariant start_url :
  fetch_discipline (trace (initial_state start_url)).
Proof. intros [|? ?] u post H; discriminate. Qed.

(** What holds at the head of the loop, turn after turn. *)
Lemma turns_invariant start_url st :
  turns (initial_state start_url) st ->
  fetch_discipline (trace st)
  /\ (forall u, In (Fetched u) (trace st) -> In u (visited_urls st))
  /\ Z.of_nat (List.length (all_results st)) = n_scraped st
  /\ n_scraped st <= Z.max 0 max_pages.
Proof.
  induction 1 as [|st u st' _ IH G B].
  - split; [apply crawl_start_invariant|]. split; [intros u []|].
    split; [reflexivity|]. simpl. lia.
  - destruct IH as (Hd & Hf & Hc & Hb).
    destruct (body_continue _ _ _ B) as (data & Hm & _ & Hv & Hr & Hn & Ht).
    apply guard_some in G. destruct G as (_ & _ & Hlt).
    assert (Hnew : ~ In (Fetched u) (trace st)).
    { intros Hin. apply Hf, mem_string_In in Hin. congruence. }
    rewrite Ht, Hv, Hr, Hn.
    split; [now apply discipline_extend|]. split; [|split].
    + intros w Hin. apply in_app_or in Hin. destruct Hin as [Hin|[Hin|[Hin|[]]]].
      * apply set_add_incl. auto.
      * discriminate.
      * inversion Hin. apply In_set_add.
    + rewrite length_app. simpl. lia.
    + lia.
Qed.

(** What holds of every state of a run. *)
Lemma reaches_invariant start_url st :
  reaches (initial_state start_url) st ->
  fetch_discipline (trace st)
  /\ (forall u, In (Fetched u) (trace st) -> In u (visited_urls st))
  /\ Z.of_nat (List.length (all_results st)) = n_scraped st
  /\ n_scraped st <= Z.max 0 max_pages.
Proof.
  intros [st0 H|st0 u st' H G B]; [now apply (turns_invariant start_url)|].
  destruct (turns_invariant _ _ H) as (Hd & Hf & Hc & Hb).
  destruct (body_break _ _ _ B) as [[_ ->]|(Hm & _ & _ & Hv & Hr & Hn & Ht)]; auto.
  assert (Hnew : ~ In (Fetched u) (trace st0)).
  { intros Hin. apply Hf, mem_string_In in Hin. congruence. }
  rewrite Ht, Hv, Hr, Hn.
  split; [now apply discipline_extend|]. split; [|split; auto].
  intros w Hin. apply in_app_or in Hin. destruct Hin as [Hin|[Hin|[Hin|[]]]].
  - apply set_add_incl. auto.
  - discriminate.
  - inversion Hin. apply In_set_add.
Qed.

Lemma crawl_unfold start_url :
  crawl scrape_single_page start_url max_pages extraction_strategy
  = loop (remaining (initial_state start_url)) (initial_state start_url).
Proof. unfold crawl, turns_left. simpl. now rewrite Z.sub_0_r. Qed.

(** The crawl returns. *)
Lemma scrape_with_pagination_returns available start_url :
  scrape_with_pagination available scrape_single_page start_url max_pages
                         extraction_strategy <> None.
Proof.
  unfold scrape_with_pagination. destruct available; simpl; [|discriminate].
  rewrite crawl_unfold.
  destruct (loop _ _) as [error|st|st] eqn:E; try discriminate.
  exfalso. revert E. apply while_loop_ends. lia.
Qed.

(** C7. Throughout a crawl, every fetch of a URL comes after the URL was
    added to the visited set, no URL is fetched twice, a turn on a visited
    URL breaks out of the loop without a fetch, and the pages collected never
    exceed [max_pages] (none is collected when [max_pages] is negative); so
    the combined document lists at most [max_pages] pages. *)
Theorem crawl_discipline start_url st :
  reaches (initial_state start_url) st ->
  fetch_discipline (trace st)
  /\ (forall u, In (Fetched u) (trace st) -> In u (visited_urls st))
  /\ (forall u, In u (visited_urls st) -> body st u = Break st)
  /\ Z.of_nat (List.length (all_results st)) <= Z.max 0 max_pages
  /\ (0 <= max_pages -> Z.of_nat (List.length (all_results st)) <= max_pages)
  /\ (forall available d,
         scrape_with_pagination available scrape_single_page start_url max_pages
                                extraction_strategy = Some (Success d) ->
         Z.of_nat (List.length (urls (c_pagination d))) <= Z.max 0 max_pages).
Proof.
  intros Hreach.
  destruct (reaches_invariant _ _ Hreach) as (Hd & Hf & Hc & Hb).
  split; [exact Hd|]. split; [exact Hf|]. split; [|split; [|split]].
  - intros u Hin. unfold loop_body. apply mem_string_In in Hin. now rewrite Hin.
  - rewrite Hc. auto.
  - rewrite Hc. lia.
  - intros available d. unfold scrape_with_pagination.
    destruct available; simpl; [|discriminate].
    destruct (crawl _ _ _ _) as [error|st'|st'] eqn:E; try discriminate.
    intros H. inversion H; subst d. simpl. rewrite length_map.
    unfold crawl in E. apply loop_finished_reaches in E.
    destruct (reaches_invariant _ _ E) as (_ & _ & Hc' & Hb'). rewrite Hc'. auto.
Qed.

(** C6. A fetch that fails on the first page makes the crawl return that
    failure, with no page collected; a fetch that fails on a later page ends
    the loop, and the crawl returns with success the pages collected before
    it, as many as [pages_scraped] says in the pagination metadata and in
    [pagination_info].  The failed URL was fetched once, and never before. *)
Theorem failed_fetch start_url st u error :
  turns (initial_state start_url) st ->
  guard st = Some u ->
  mem_string u (visited_urls st) = false ->
  scrape_single_page u extraction_strategy = Failure error ->
  (n_scraped st = 0 ->
   all_results st = []
   /\ scrape_with_pagination true scrape_single_page start_url max_pages
                             extraction_strategy = Some (Failure error))
  /\ (n_scraped st <> 0 ->
      exists st' d,
        crawl scrape_single_page start_url max_pages extraction_strategy = Finished st'
        /\ scrape_with_pagination true scrape_single_page start_url max_pages
                                  extraction_strategy = Some (Success d)
        /\ d = combine_results start_url max_pages st'
        /\ all_results st' = all_results st
        /\ Z.of_nat (List.length (all_results st)) = n_scraped st
        /\ urls (c_pagination d) = map url (all_results st)
        /\ pages_scraped (c_pagination d) = n_scraped st
        /\ dict_get "pagination_info" (c_json d)
           = Some (pagination_info (n_scraped st) (all_results st))
        /\ trace st' = (trace st ++ [Visited u; Fetched u])%list
        /\ ~ In (Fetched u) (trace st)).
Proof.
  intros Hturns G Hm Hfail.
  destruct (turns_invariant _ _ Hturns) as (Hd & Hf & Hc & _).
  assert (Hloop : crawl scrape_single_page start_url max_pages extraction_strategy
                  = match body st u with
                    | Return e => Returned e
                    | Break st' => Finished st'
                    | Continue st' => loop (remaining st - 1) st'
                    end).
  { rewrite crawl_unfold, (turns_loop _ _ Hturns).
    pose proof (guard_some _ _ G) as (_ & _ & Hlt). unfold turns_left.
    destruct (Z.to_nat (max_pages - n_scraped st)) as [|k] eqn:K; [lia|].
    simpl. rewrite G. now rewrite Nat.sub_0_r. }
  unfold loop_body in Hloop. rewrite Hm, Hfail in Hloop.
  split; intros Hn.
  - split.
    + rewrite Hn in Hc. destruct (all_results st); [auto|discriminate].
    + unfold scrape_with_pagination. simpl. rewrite Hloop, Hn. reflexivity.
  - apply Z.eqb_neq in Hn. rewrite Hn in Hloop.
    eexists. eexists. split; [exact Hloop|].
    split; [unfold scrape_with_pagination; simpl; rewrite Hloop; reflexivity|].
    repeat split; simpl; auto.
    + unfold combined_json. apply dict_get_set_same.
    + intros Hin. apply Hf, mem_string_In in Hin. congruence.
Qed.
End CrawlProperties.

Lemma failed_fetch_witness :
  exists d,
    scrape_with_pagination true (sample_site ["one"]) "http://x.test/1" 5 JNull
    = Some (Success d)
    /\ pages_scraped (c_pagination d) = 1
    /\ urls (c_pagination d) = ["http://x.test/1"].
Proof.
  destruct (failed_fetch (sample_site ["one"]) 5 JNull "http://x.test/1"
              {| visited_urls := ["http://x.test/1"];
                 all_results := [sample_page 1 "one"];
                 current_url := Some "http://x.test/2";
                 n_scraped := 1;
                 trace := [Visited "http://x.test/1"; Fetched "http://x.test/1"] |}
              "http://x.test/2" "Failed to scrape URL: Unknown error")
    as [_ H].
  - eapply turns_next with (st := initial_state "http://x.test/1")
                           (u := "http://x.test/1");
      [constructor | vm_compute; reflexivity | vm_compute; reflexivity].
  - vm_compute. reflexivity.
  - vm_compute. reflexivity.
  - vm_compute. reflexivity.
  - destruct H as (st' & d & _ & Hd & _ & _ & _ & Hurls & Hn & _); [discriminate|].
    exists d. repeat split; auto.
Defined.

Lemma crawl_discipline_witness :
  fetch_discipline [Visited "http://x.test/1"; Fetched "http://x.test/1";
                    Visited "http://x.test/2"; Fetched "http://x.test/2"].
Proof.
  refine (proj1 (crawl_discipline (sample_site ["one"]) 5 JNull "http://x.test/1"
              {| visited_urls := ["http://x.test/2"; "http://x.test/1"];
                 all_results := [sample_page 1 "one"];
                 current_url := Some "http://x.test/2";
                 n_scraped := 1;
                 trace := [Visited "http://x.test/1"; Fetched "http://x.test/1";
                           Visited "http://x.test/2"; Fetched "http://x.test/2"] |}
              _)).
  eapply reaches_break
    with (u := "http://x.test/2")
         (st := {| visited_urls := ["http://x.test/1"];
                   all_results := [sample_page 1 "one"];
                   current_url := Some "http://x.test/2";
                   n_scraped := 1;
                   trace := [Visited "http://x.test/1"; Fetched "http://x.test/1"] |});
    [|vm_compute; reflexivity|vm_compute; reflexivity].
  eapply turns_next with (st := initial_state "http://x.test/1")
                         (u := "http://x.test/1");
    [constructor | vm_compute; reflexivity | vm_compute; reflexivity].
Defined.

(** ** The combined document *)

(** A text without the character [c] cannot reach over a [c]. *)
Lemma prefix_before_char c sub :
  without_char c sub = true ->
  forall a rest, prefix sub (a ++ String c rest) = prefix sub a.
Proof.
  unfold without_char.
  induction sub as [|x sub IH]; simpl; intros H a rest; [now destruct a|].
  apply andb_prop in H. destruct H as [Hx Hsub].
  destruct a as [|y a]; simpl.
  - destruct (ascii_dec x c) as [->|Hne]; [|reflexivity].
    rewrite Ascii.eqb_refl in Hx. discriminate.
  - destruct (ascii_dec x y); auto.
Qed.

Lemma occurrences_before_char c sub :
  without_char c sub = true ->
  forall a rest,
    occurrences sub (a ++ String c rest) = (occurrences sub a + occurrences sub rest)%nat.
Proof.
  intros Hc. induction a as [|y a IH]; intros rest.
  - pose proof (prefix_before_char c sub Hc EmptyString rest) as E.
    change (EmptyString ++ String c rest) with (String c rest) in *.
    cbn [occurrences]. rewrite E. lia.
  - pose proof (prefix_before_char c sub Hc (String y a) rest) as E.
    change (String y a ++ String c rest) with (String y (a ++ String c rest)) in *.
    cbn [occurrences]. rewrite E, IH. lia.
Qed.

(** C8, as the program has it.  The combined markdown of a crawl of two
    pages is the two page blocks, each a header and the markdown of the page,
    with the separator text between them; it has the line of the page break
    once more than the two blocks have it, and exactly once when no block
    has it. *)
Theorem page_break_between_two_pages start_url max_pages st r1 r2 :
  all_results st = [r1; r2] ->
  c_markdown (combine_results start_url max_pages st)
  = (page_header 0 r1 ++ markdown r1) ++ markdown_separator
    ++ (page_header 1 r2 ++ markdown r2)
  /\ occurrences PAGE_BREAK (c_markdown (combine_results start_url max_pages st))
     = (occurrences PAGE_BREAK (page_header 0 r1 ++ markdown r1) + 1
        + occurrences PAGE_BREAK (page_header 1 r2 ++ markdown r2))%nat
  /\ (occurrences PAGE_BREAK (page_header 0 r1 ++ markdown r1) = 0%nat ->
      occurrences PAGE_BREAK (page_header 1 r2 ++ markdown r2) = 0%nat ->
      occurrences PAGE_BREAK (c_markdown (combine_results start_url max_pages st))
      = 1%nat).
Proof.
  intros Hres.
  assert (Hmd : c_markdown (combine_results start_url max_pages st)
                = (page_header 0 r1 ++ markdown r1) ++ markdown_separator
                  ++ (page_header 1 r2 ++ markdown r2)).
  { unfold combine_results. simpl. rewrite Hres. reflexivity. }
  assert (Hcount :
            occurrences PAGE_BREAK (c_markdown (combine_results start_url max_pages st))
            = (occurrences PAGE_BREAK (page_header 0 r1 ++ markdown r1) + 1
               + occurrences PAGE_BREAK (page_header 1 r2 ++ markdown r2))%nat).
  { rewrite Hmd.
    generalize (page_header 0 r1 ++ markdown r1) (page_header 1 r2 ++ markdown r2).
    intros b1 b2.
    assert (Hc : without_char (ascii_of_nat 10) PAGE_BREAK = true) by reflexivity.
    change (markdown_separator ++ b2)
      with (String (ascii_of_nat 10)
              (EmptyString ++ String (ascii_of_nat 10)
                 (PAGE_BREAK ++ String (ascii_of_nat 10)
                    (EmptyString ++ String (ascii_of_nat 10) b2)))).
    rewrite !(occurrences_before_char _ _ Hc).
    change (occurrences PAGE_BREAK EmptyString) with 0%nat.
    change (occurrences PAGE_BREAK PAGE_BREAK) with 1%nat. lia. }
  split; [exact Hmd|]. split; [exact Hcount|].
  intros H1 H2. rewrite Hcount, H1, H2. reflexivity.
Qed.

Lemma page_break_between_two_pages_witness :
  occurrences PAGE_BREAK
    (c_markdown
       (combine_results "http://x.test/1" 2
          {| visited_urls := ["http://x.test/2"; "http://x.test/1"];
             all_results := [sample_page 1 "one"; sample_page 2 "two"];
             current_url := Some "http://x.test/3";
             n_scraped := 2;
             trace := [Visited "http://x.test/1"; Fetched "http://x.test/1";
                       Visited "http://x.test/2"; Fetched "http://x.test/2"] |}))
  = 1%nat.
Proof.
  refine (proj2 (proj2 (page_break_between_two_pages
                          "http://x.test/1" 2
                          {| visited_urls := ["http://x.test/2"; "http://x.test/1"];
                             all_results := [sample_page 1 "one"; sample_page 2 "two"];
                             current_url := Some "http://x.test/3";
                             n_scraped := 2;
                             trace := [Visited "http://x.test/1";
                                       Fetched "http://x.test/1";
                                       Visited "http://x.test/2";
                                       Fetched "http://x.test/2"] |}
                          (sample_page 1 "one") (sample_page 2 "two") eq_refl)) _ _);
    vm_compute; reflexivity.
Defined.

(** A crawl of two pages whose first page has the line of the page break in
    its own markdown: the combined markdown has the line twice. *)
Lemma page_break_twice :
  exists d,
    scrape_with_pagination true (sample_site ["--- PAGE BREAK ---"; "two"])
                           "http://x.test/1" 2 JNull = Some (Success d)
    /\ pages_scraped (c_pagination d) = 2
    /\ urls (c_pagination d) = ["http://x.test/1"; "http://x.test/2"]
    /\ occurrences PAGE_BREAK (c_markdown d) = 2%nat.
Proof. eexists. vm_compute. repeat split. Qed.

(** ** The command lines *)

Section CommandLineProperties.
Variable json_loads : string -> option json.
Variable CRAWL4AI_AVAILABLE : bool.
Variable scrape_single_page : string -> json -> scrape_result page_data.

Local Abbreviation read_one := (read_argument json_loads).
Local Abbreviation read_all := (read_arguments json_loads).
Local Abbreviation run := (main json_loads CRAWL4AI_AVAILABLE scrape_single_page).



End CommandLineProperties.



(** * Further properties *)

(** ** The confidence of a candidate *)

Lemma keyword_confidence_values patterns t :
  keyword_confidence patterns t = 0 \/ keyword_confidence patterns t = 10
  \/ keyword_confidence patterns t = 15.
Proof.
  induction patterns as [|p patterns IH]; simpl; auto.
  destruct (re_found no_flags (compile p) t); auto.
  destruct (String.eqb t (exact_form p)); auto.
Qed.

Lemma numeric_confidence_values t :
  numeric_confidence t = 0 \/ numeric_confidence t = 8 \/ numeric_confidence t = 11.
Proof.
  unfold numeric_confidence. destruct (re_match _ _ _); auto.
  destruct (_ && _); auto.
Qed.

(** The confidence of an anchor is 0 or at least 5, and at most 53. *)
Lemma anchor_confidence_range html href link_text :
  (anchor_confidence html href link_text = 0
   \/ 5 <= anchor_confidence html href link_text)
  /\ anchor_confidence html href link_text <= 53.
Proof.
  unfold anchor_confidence. cbv zeta.
  destruct (keyword_confidence_values PAGINATION_PATTERNS
              (lower (clean_text link_text))) as [-> | [-> | ->]];
    destruct (numeric_confidence_values (clean_text link_text)) as [-> | [-> | ->]];
    unfold url_confidence, rel_next_confidence, class_confidence;
    destruct (existsb _ url_pagination_patterns);
    destruct (re_found I_flag (rel_next_pattern href) html);
    destruct (re_found I_flag (class_pattern href) html); lia.
Qed.

Lemma Forall_dict_set (P : Z -> Prop) k v (d : candidates) :
  Forall (fun p => P (snd p)) d -> P v -> Forall (fun p => P (snd p)) (dict_set k v d).
Proof.
  intros Hd Hv. induction Hd as [|[k' w] d Hw Hd IH]; simpl.
  - repeat constructor. exact Hv.
  - destruct (String.eqb k k'); constructor; auto.
Qed.

Lemma dict_get_Forall (P : Z -> Prop) k v (d : candidates) :
  Forall (fun p => P (snd p)) d -> dict_get k d = Some v -> P v.
Proof.
  intros Hd Hk. apply dict_get_In in Hk. rewrite Forall_forall in Hd.
  apply (Hd (k, v) Hk).
Qed.

Lemma record_new_confident u v (d : candidates) :
  5 <= v -> Forall confident d -> Forall confident (record_new u v d).
Proof.
  intros Hv Hd. unfold record_new. destruct (dict_mem u d); auto.
  now apply (Forall_dict_set (fun c => 5 <= c)).
Qed.

Lemma pagination_candidates_confident html base_url :
  Forall confident (pagination_candidates html base_url).
Proof.
  unfold pagination_candidates, form_candidates, button_candidates, anchor_candidates.
  apply (fold_left_invariant (Forall confident)).
  { intros d [action page_value] H. unfold form_step.
    destruct (isdigit page_value); auto. apply record_new_confident; auto. lia. }
  apply (fold_left_invariant (Forall confident)).
  { intros d [onclick_attr button_text] H. unfold button_step.
    destruct (existsb _ PAGINATION_PATTERNS); auto.
    destruct (re_search no_flags onclick_url_pattern onclick_attr) as [[|t [|? ?]]|];
      auto. apply record_new_confident; auto. lia. }
  apply (fold_left_invariant (Forall confident)); [|constructor].
  intros d [href link_text] H. unfold anchor_step.
  destruct (negb (nonempty (strip href))); auto.
  destruct (negb (should_exclude href link_text)) eqn:Hex; simpl; auto.
  destruct (0 <? anchor_confidence html href link_text) eqn:Hpos; auto.
  apply Z.ltb_lt in Hpos.
  assert (H5 : 5 <= anchor_confidence html href link_text).
  { destruct (anchor_confidence_range html href link_text) as [[H0|H5] _]; lia. }
  unfold record_anchor.
  destruct (negb (String.eqb (urljoin base_url href) base_url)
            && negb (dict_mem (urljoin base_url href) d)).
  - now apply (Forall_dict_set (fun c => 5 <= c)).
  - destruct (dict_get (urljoin base_url href) d) as [old|]; auto.
    apply (Forall_dict_set (fun c => 5 <= c)); auto. lia.
Qed.

Lemma filter_all {X : Type} (f : X -> bool) l :
  Forall (fun x => f x = true) l -> filter f l = l.
Proof. induction 1 as [|x l Hx _ IH]; simpl; [|rewrite Hx, IH]; reflexivity. Qed.

Lemma Forall_firstn {X : Type} (P : X -> Prop) n l :
  Forall P l -> Forall P (firstn n l).
Proof.
  intros H. rewrite Forall_forall in *. intros x Hx. apply H.
  rewrite <- (firstn_skipn n l). apply in_or_app. now left.
Qed.

(** X1.  Every candidate has a confidence of at least 5, so the threshold of
    the last line of the detector drops nothing: the output is the first three
    URLs of the ranking, or all of them when there are fewer. *)
Theorem threshold_drops_nothing html base_url :
  (forall u c, dict_get u (pagination_candidates html base_url) = Some c -> 5 <= c)
  /\ find_pagination_links html base_url
     = map fst (firstn 3 (sorted_desc (pagination_candidates html base_url)))
  /\ List.length (find_pagination_links html base_url)
     = Nat.min 3 (List.length (pagination_candidates html base_url)).
Proof.
  pose proof (pagination_candidates_confident html base_url) as Hc.
  assert (Heq : find_pagination_links html base_url
                = map fst (firstn 3 (sorted_desc (pagination_candidates html base_url)))).
  { unfold find_pagination_links, top_candidates. f_equal. apply filter_all.
    apply Forall_firstn. rewrite (sorted_desc_perm _).
    eapply Forall_impl; [|exact Hc]. intros p Hp. now apply Z.leb_le. }
  split; [|split; [exact Heq|]].
  - intros u c Hu. apply (dict_get_Forall (fun c => 5 <= c) u c _ Hc Hu).
  - rewrite Heq, length_map, length_firstn.
    now rewrite (Permutation_length (sorted_desc_perm _)).
Qed.

Lemma NoDup_map_firstn {X Y : Type} (f : X -> Y) n l :
  NoDup (map f l) -> NoDup (map f (firstn n l)).
Proof.
  intros H. rewrite <- (firstn_skipn n l), map_app in H.
  now apply NoDup_app_remove_r in H.
Qed.

Lemma NoDup_map_filter {X Y : Type} (f : X -> Y) g l :
  NoDup (map f l) -> NoDup (map f (filter g l)).
Proof.
  induction l as [|x l IH]; simpl; auto. intros H.
  inversion H as [|? ? Hx Hl]; subst. destruct (g x); simpl; auto.
  constructor; auto. intros Hin. apply Hx.
  apply in_map_iff in Hin. destruct Hin as (y & Hy & Hin).
  apply filter_In in Hin. rewrite <- Hy. apply in_map. tauto.
Qed.

(** X2.  The detector never returns a URL twice. *)
Theorem find_pagination_links_NoDup html base_url :
  NoDup (find_pagination_links html base_url).
Proof.
  unfold find_pagination_links, top_candidates.
  apply NoDup_map_filter, NoDup_map_firstn.
  apply (Permutation_NoDup
           (l := map fst (pagination_candidates html base_url))).
  - apply Permutation_map. symmetry. apply sorted_desc_perm.
  - apply NoDup_pagination_candidates.
Qed.

(** ** Ties and the origin of a candidate *)

Lemma with_confidence_insert c x l :
  with_confidence c (insert_desc x l) = with_confidence c (x :: l).
Proof.
  unfold with_confidence. induction l as [|y l IH]; simpl; auto.
  destruct (snd x <? snd y) eqn:E; simpl; auto.
  rewrite IH. simpl. apply Z.ltb_lt in E.
  destruct (snd x =? c) eqn:Ex; destruct (snd y =? c) eqn:Ey; auto.
  apply Z.eqb_eq in Ex, Ey. lia.
Qed.

Lemma with_confidence_sorted c l :
  with_confidence c (sorted_desc l) = with_confidence c l.
Proof.
  induction l as [|x l IH]; simpl; auto.
  rewrite with_confidence_insert. unfold with_confidence in *. simpl.
  now rewrite IH.
Qed.

(** X3.  Ties keep the order of recording: the candidates of one confidence
    that the detector returns are the first ones that were recorded with that
    confidence, in the order of recording. *)
Theorem ties_in_recording_order html base_url c :
  exists later,
    with_confidence c (pagination_candidates html base_url)
    = (with_confidence c (top_candidates (pagination_candidates html base_url))
       ++ later)%list.
Proof.
  exists (with_confidence c (skipn 3 (sorted_desc (pagination_candidates html base_url)))).
  rewrite <- (with_confidence_sorted c (pagination_candidates html base_url)).
  unfold top_candidates. rewrite filter_all.
  - unfold with_confidence. rewrite <- filter_app. now rewrite firstn_skipn.
  - apply Forall_firstn. rewrite (sorted_desc_perm _).
    eapply Forall_impl; [|apply pagination_candidates_confident].
    intros p Hp. now apply Z.leb_le.
Qed.

Lemma fold_left_invariant_In {S X : Type} (P : S -> Prop) (f : S -> X -> S) l :
  (forall s x, In x l -> P s -> P (f s x)) -> forall s, P s -> P (fold_left f l s).
Proof.
  induction l as [|x l IH]; simpl; intros Hf s Hs; [assumption|].
  apply IH; auto.
Qed.

(** Every candidate of the first strategy comes from an anchor of the page. *)
Lemma anchor_candidates_origin html base_url u c :
  dict_get u (anchor_candidates html base_url) = Some c ->
  exists href link_text,
    recorded_anchor html base_url href link_text
    /\ urljoin base_url href = u
    /\ anchor_confidence html href link_text = c.
Proof.
  unfold anchor_candidates. revert u c.
  apply (fold_left_invariant_In
           (fun d : candidates =>
              forall u c, dict_get u d = Some c ->
                          exists href link_text,
                            recorded_anchor html base_url href link_text
                            /\ urljoin base_url href = u
                            /\ anchor_confidence html href link_text = c));
    [|discriminate].
  intros d [href link_text] Hin IH u c. unfold anchor_step.
  destruct (nonempty (strip href)) eqn:Hne; simpl; auto.
  destruct (should_exclude href link_text) eqn:Hex; simpl; auto.
  destruct (0 <? anchor_confidence html href link_text) eqn:Hpos; auto.
  apply Z.ltb_lt in Hpos. unfold record_anchor.
  destruct (String.eqb (urljoin base_url href) base_url) eqn:Hbase; simpl.
  - apply String.eqb_eq in Hbase.
    destruct (dict_get (urljoin base_url href) d) as [old|] eqn:Hold; auto.
    destruct (IH _ _ Hold) as (h & t & (_ & _ & _ & _ & Hnb) & Hu & _).
    congruence.
  - apply String.eqb_neq in Hbase.
    assert (Hthis : recorded_anchor html base_url href link_text)
      by (unfold recorded_anchor; auto).
    unfold dict_mem.
    destruct (dict_get (urljoin base_url href) d) as [old|] eqn:Hold; simpl.
    + destruct (string_dec u (urljoin base_url href)) as [->|Hne'].
      * rewrite dict_get_set_same. intros H. inversion H; subst c.
        destruct (Z.max_spec old (anchor_confidence html href link_text))
          as [[_ ->]|[_ ->]]; eauto.
      * rewrite dict_get_set_other; auto.
    + destruct (string_dec u (urljoin base_url href)) as [->|Hne'].
      * rewrite dict_get_set_same. intros H. inversion H; subst c. eauto.
      * rewrite dict_get_set_other; auto.
Qed.

(** X4.  The confidence of a URL that the anchors recorded is the highest
    confidence among the recorded anchors that lead to it. *)
Theorem anchor_candidate_is_maximum html base_url u c :
  dict_get u (anchor_candidates html base_url) = Some c ->
  u <> base_url
  /\ (exists href link_text,
         recorded_anchor html base_url href link_text
         /\ urljoin base_url href = u
         /\ anchor_confidence html href link_text = c)
  /\ (forall href link_text,
         recorded_anchor html base_url href link_text ->
         urljoin base_url href = u ->
         anchor_confidence html href link_text <= c).
Proof.
  intros Hu. split; [|split].
  - intros ->. rewrite anchor_candidates_not_base in Hu. discriminate.
  - now apply anchor_candidates_origin.
  - intros href link_text (Hin & Hne & Hex & Hpos & Hbase) Hjoin.
    destruct (anchor_recorded html base_url href link_text _ Hin Hne Hex Hpos Hbase [])
      as (c' & Hc' & Hle).
    fold (anchor_candidates html base_url) in Hc'. rewrite Hjoin in Hc'. congruence.
Qed.

Lemma anchor_candidate_is_maximum_witness :
  "http://x.test/p2" <> "http://x.test/p1"
  /\ forall href link_text,
      recorded_anchor "<a href='/p2'>2</a><a href='/p2'>Next page</a>"
                      "http://x.test/p1" href link_text ->
      urljoin "http://x.test/p1" href = "http://x.test/p2" ->
      anchor_confidence "<a href='/p2'>2</a><a href='/p2'>Next page</a>"
                        href link_text <= 20.
Proof.
  pose proof (anchor_candidate_is_maximum
                "<a href='/p2'>2</a><a href='/p2'>Next page</a>"
                "http://x.test/p1" "http://x.test/p2" 20) as H.
  destruct H as (Hne & _ & Hmax); [vm_compute; reflexivity|].
  split; [exact Hne | exact Hmax].
Defined.

(** ** More on the crawl loop *)

Section CrawlFurther.
Variable scrape_single_page : string -> json -> scrape_result page_data.
Variable max_pages : Z.
Variable extraction_strategy : json.

Local Abbreviation guard := (loop_guard max_pages).
Local Abbreviation body := (loop_body scrape_single_page extraction_strategy).
Local Abbreviation loop := (while_loop scrape_single_page max_pages extraction_strategy).
Local Abbreviation turns := (turns scrape_single_page max_pages extraction_strategy).
Local Abbreviation reaches := (reaches scrape_single_page max_pages extraction_strategy).
Local Abbreviation crawl_from :=
  (fun start_url => crawl scrape_single_page start_url max_pages extraction_strategy).
Local Abbreviation scrape :=
  (fun available start_url =>
     scrape_with_pagination available scrape_single_page start_url max_pages
                            extraction_strategy).


Lemma fetches_app t1 t2 : fetches (t1 ++ t2) = (fetches t1 + fetches t2)%nat.
Proof. unfold fetches. now rewrite filter_app, length_app. Qed.

(** At the head of the loop every fetch so far gave a page. *)
Lemma turns_fetches start_url st :
  turns (initial_state start_url) st ->
  fetches (trace st) = List.length (all_results st)
  /\ (st = initial_state start_url \/ 1 <= n_scraped st).
Proof.
  induction 1 as [|st u st' Hturns IH G B]; [auto|].
  destruct IH as [IH Hn0].
  destruct (body_continue _ _ _ _ _ B) as (data & _ & _ & _ & Hr & Hn & Ht).
  rewrite Ht, Hr, fetches_app, length_app, IH. split; [reflexivity|].
  right. rewrite Hn. destruct Hn0 as [->|Hn0]; [simpl|]; lia.
Qed.

(** X5.  The crawl fetches at most [max_pages] times, and every fetch but a
    last failed one gives a page of the result. *)
Theorem fetches_bounded start_url st :
  reaches (initial_state start_url) st ->
  (fetches (trace st) = List.length (all_results st)
   \/ fetches (trace st) = S (List.length (all_results st)))
  /\ Z.of_nat (fetches (trace st)) <= Z.max 0 max_pages.
Proof.
  intros [st0 H|st0 u st' H G B].
  - destruct (turns_fetches _ _ H) as [Hf _].
    destruct (turns_invariant _ _ _ _ _ H) as (_ & _ & Hc & Hb).
    rewrite Hf. split; [auto|lia].
  - destruct (turns_fetches _ _ H) as [Hf _].
    destruct (turns_invariant _ _ _ _ _ H) as (_ & _ & Hc & Hb).
    apply guard_some in G. destruct G as (_ & _ & Hlt).
    destruct (body_break _ _ _ _ _ B) as [[_ ->]|(_ & _ & _ & _ & Hr & _ & Ht)].
    + rewrite Hf. split; [auto|lia].
    + rewrite Ht, Hr, fetches_app, Hf.
      change (fetches [Visited u; Fetched u]) with 1%nat. split; [right; lia|lia].
Qed.

(** X6.  With an empty start URL or a page budget of zero or less the crawl
    fetches nothing and returns, with success, a document without pages. *)
Theorem nothing_to_crawl start_url :
  nonempty start_url = false \/ max_pages <= 0 ->
  crawl_from start_url = Finished (initial_state start_url)
  /\ exists d,
      scrape true start_url = Some (Success d)
      /\ c_markdown d = EmptyString /\ c_html d = EmptyString
      /\ c_title d = EmptyString
      /\ urls (c_pagination d) = [] /\ pages_scraped (c_pagination d) = 0.
Proof.
  intros H.
  assert (G : guard (initial_state start_url) = None).
  { unfold loop_guard. simpl. destruct H as [->|H]; [reflexivity|].
    assert (E : (0 <? max_pages) = false) by (apply Z.ltb_ge; lia).
    rewrite E. now rewrite andb_false_r. }
  assert (C : crawl_from start_url = Finished (initial_state start_url)).
  { unfold crawl. destruct (Z.to_nat max_pages); simpl; now rewrite G. }
  split; [exact C|]. eexists. unfold scrape_with_pagination. simpl. rewrite C.
  split; [reflexivity|]. simpl. repeat split.
Qed.

(** X7.  The document of a successful crawl is consistent: the start URL and
    the budget are the ones asked for, [pages_scraped] counts the URLs of
    the pages, and [pagination_info] in the JSON says the same. *)
Theorem crawl_result_consistent available start_url d :
  scrape available start_url = Some (Success d) ->
  c_url d = start_url
  /\ max_pages_requested (c_pagination d) = max_pages
  /\ pages_scraped (c_pagination d)
     = Z.of_nat (List.length (urls (c_pagination d)))
  /\ pages_scraped (c_pagination d) <= Z.max 0 max_pages
  /\ dict_get "pagination_info" (c_json d)
     = Some (JDict [ ("pages_scraped", JNum (pages_scraped (c_pagination d)));
                     ("urls_scraped", JList (map JStr (urls (c_pagination d))));
                     ("total_results", JNum (pages_scraped (c_pagination d))) ]).
Proof.
  unfold scrape_with_pagination. destruct available; simpl; [|discriminate].
  destruct (crawl _ _ _ _) as [error|st|st] eqn:E; try discriminate.
  intros H. inversion H; subst d. clear H. simpl.
  unfold crawl in E. apply loop_finished_reaches in E.
  destruct (reaches_invariant _ _ _ _ _ E) as (_ & _ & Hc & Hb).
  rewrite length_map, Hc. repeat split; auto.
  unfold combined_json. rewrite dict_get_set_same. unfold pagination_info.
  now rewrite map_map, Hc.
Qed.



(** The next URL of a turn is a link that the detector returned for the
    page of that turn. *)
Lemma next_url_from_detector st u st' :
  body st u = Continue st' ->
  exists data,
    scrape_single_page u extraction_strategy = Success data
    /\ match current_url st' with
       | Some link => In link (find_pagination_links (html data) u)
       | None => find_pagination_links (html data) u = []
       end.
Proof.
  unfold loop_body. destruct (mem_string u (visited_urls st)); [discriminate|].
  destruct (scrape_single_page u extraction_strategy) as [data|error];
    [|destruct (n_scraped st =? 0); discriminate].
  intros H. inversion H; subst st'. simpl. exists data. split; auto.
  unfold select_next_url.
  destruct (find_pagination_links (html data) u) as [|first rest]; auto.
  destruct (find _ (first :: rest)) as [link|] eqn:E.
  - apply find_some in E. tauto.
  - now left.
Qed.
Lemma link_chain_snoc us u :
  link_chain scrape_single_page extraction_strategy us ->
  (forall prev last,
      us = (prev ++ [last])%list ->
      exists data,
        scrape_single_page last extraction_strategy = Success data
        /\ In u (find_pagination_links (html data) last)) ->
  link_chain scrape_single_page extraction_strategy (us ++ [u]).
Proof.
  intros Hc Hlast before x y after E.
  destruct after as [|z after _] using rev_ind.
  - change (before ++ [x; y])%list with (before ++ [x] ++ [y])%list in E.
    rewrite app_assoc in E. apply app_inj_tail in E. destruct E as [E ->].
    now apply (Hlast before x).
  - change (before ++ x :: y :: after ++ [z])%list
      with (before ++ (x :: y :: after) ++ [z])%list in E.
    rewrite app_assoc in E. apply app_inj_tail in E. destruct E as [E _].
    now apply (Hc before x y after).
Qed.

Lemma fetched_turn t u :
  fetched (t ++ [Visited u; Fetched u]) = (fetched t ++ [u])%list.
Proof. unfold fetched. now rewrite flat_map_app. Qed.

Lemma turns_link_chain start_url st :
  turns (initial_state start_url) st ->
  (forall u rest, fetched (trace st) = u :: rest -> u = start_url)
  /\ link_chain scrape_single_page extraction_strategy (fetched (trace st))
  /\ (forall u,
        current_url st = Some u ->
        (fetched (trace st) = [] /\ u = start_url)
        \/ exists prev last data,
            fetched (trace st) = (prev ++ [last])%list
            /\ scrape_single_page last extraction_strategy = Success data
            /\ In u (find_pagination_links (html data) last)).
Proof.
  induction 1 as [|st u st' Hturns IH G B].
  - simpl. split; [discriminate|]. split.
    + intros [|x before] u u' after E; discriminate.
    + intros u E. inversion E. auto.
  - destruct IH as (Hfirst & Hchain & Hcur).
    apply guard_some in G. destruct G as (Hu & _ & _).
    destruct (body_continue _ _ _ _ _ B) as (data & _ & Hdata & _ & _ & _ & Ht).
    destruct (next_url_from_detector _ _ _ B) as (data' & Hdata' & Hnext).
    rewrite Ht, fetched_turn. split; [|split].
    + intros v rest E. destruct (fetched (trace st)) as [|w l] eqn:El.
      * inversion E; subst v. destruct (Hcur _ Hu) as [[_ ->]|(prev & last & d & Ep & _)];
          [reflexivity|]. destruct prev; discriminate.
      * inversion E; subst v. now apply (Hfirst w l).
    + apply link_chain_snoc; [exact Hchain|]. intros prev last E.
      destruct (Hcur _ Hu) as [[E0 _]|(prev' & last' & d & Ep & Hd & Hin)].
      * rewrite E0 in E. destruct prev; discriminate.
      * rewrite Ep in E. apply app_inj_tail in E. destruct E as [_ ->]. eauto.
    + intros v Hv. right. exists (fetched (trace st)), u, data'.
      rewrite Hv in Hnext. auto.
Qed.

(** X9.  The crawl follows the links of the detector: the first URL it fetches
    is the start URL, and every URL it fetches after that is a link that
    the detector returned for the page fetched just before it. *)
Theorem crawl_follows_links start_url st :
  reaches (initial_state start_url) st ->
  (forall u rest, fetched (trace st) = u :: rest -> u = start_url)
  /\ link_chain scrape_single_page extraction_strategy (fetched (trace st)).
Proof.
  intros [st0 H|st0 u st' H G B].
  - destruct (turns_link_chain _ _ H) as (Hfirst & Hchain & _). auto.
  - destruct (turns_link_chain _ _ H) as (Hfirst & Hchain & Hcur).
    apply guard_some in G. destruct G as (Hu & _ & _).
    destruct (body_break _ _ _ _ _ B) as [[_ ->]|(_ & _ & _ & _ & _ & _ & Ht)];
      [auto|].
    rewrite Ht, fetched_turn. split.
    + intros v rest E. destruct (fetched (trace st0)) as [|w l] eqn:El.
      * inversion E; subst v. destruct (Hcur _ Hu) as [[_ ->]|(prev & last & d & Ep & _)];
          [reflexivity|]. destruct prev; discriminate.
      * inversion E; subst v. now apply (Hfirst w l).
    + apply link_chain_snoc; [exact Hchain|]. intros prev last E.
      destruct (Hcur _ Hu) as [[E0 _]|(prev' & last' & d & Ep & Hd & Hin)].
      * rewrite E0 in E. destruct prev; discriminate.
      * rewrite Ep in E. apply app_inj_tail in E. destruct E as [_ ->]. eauto.
Qed.
End CrawlFurther.

Lemma fetches_bounded_witness :
  (fetches [Visited "http://x.test/1"; Fetched "http://x.test/1";
            Visited "http://x.test/2"; Fetched "http://x.test/2"]
   = List.length [sample_page 1 "one"]
   \/ fetches [Visited "http://x.test/1"; Fetched "http://x.test/1";
               Visited "http://x.test/2"; Fetched "http://x.test/2"]
      = S (List.length [sample_page 1 "one"]))
  /\ Z.of_nat (fetches [Visited "http://x.test/1"; Fetched "http://x.test/1";
                        Visited "http://x.test/2"; Fetched "http://x.test/2"])
     <= Z.max 0 5.
Proof.
  refine (fetches_bounded (sample_site ["one"]) 5 JNull "http://x.test/1"
              {| visited_urls := ["http://x.test/2"; "http://x.test/1"];
                 all_results := [sample_page 1 "one"];
                 current_url := Some "http://x.test/2";
                 n_scraped := 1;
                 trace := [Visited "http://x.test/1"; Fetched "http://x.test/1";
                           Visited "http://x.test/2"; Fetched "http://x.test/2"] |}
              _).
  eapply reaches_break
    with (u := "http://x.test/2")
         (st := {| visited_urls := ["http://x.test/1"];
                   all_results := [sample_page 1 "one"];
                   current_url := Some "http://x.test/2";
                   n_scraped := 1;
                   trace := [Visited "http://x.test/1"; Fetched "http://x.test/1"] |});
    [|vm_compute; reflexivity|vm_compute; reflexivity].
  eapply turns_next with (st := initial_state "http://x.test/1")
                         (u := "http://x.test/1");
    [constructor | vm_compute; reflexivity | vm_compute; reflexivity].
Defined.

Lemma nothing_to_crawl_witness :
  crawl (sample_site ["one"]) "http://x.test/1" 0 JNull
  = Finished (initial_state "http://x.test/1")
  /\ exists d,
      scrape_with_pagination true (sample_site ["one"]) "http://x.test/1" 0 JNull
      = Some (Success d)
      /\ c_markdown d = EmptyString /\ c_html d = EmptyString
      /\ c_title d = EmptyString
      /\ urls (c_pagination d) = [] /\ pages_scraped (c_pagination d) = 0.
Proof.
  refine (nothing_to_crawl (sample_site ["one"]) 0 JNull "http://x.test/1"
                           (or_intror _)).
  lia.
Defined.

Lemma crawl_result_consistent_witness :
  exists d,
    scrape_with_pagination true (sample_site ["one"; "two"]) "http://x.test/1" 5 JNull
    = Some (Success d)
    /\ c_url d = "http://x.test/1"
    /\ max_pages_requested (c_pagination d) = 5
    /\ pages_scraped (c_pagination d)
       = Z.of_nat (List.length (urls (c_pagination d)))
    /\ pages_scraped (c_pagination d) <= Z.max 0 5.
Proof.
  assert (E : exists d,
             scrape_with_pagination true (sample_site ["one"; "two"])
                                    "http://x.test/1" 5 JNull
             = Some (Success d))
    by (vm_compute; eexists; reflexivity).
  destruct E as [d E]. exists d. split; [exact E|].
  destruct (crawl_result_consistent _ _ _ _ _ _ E) as (H1 & H2 & H3 & H4 & _).
  auto.
Defined.


Lemma crawl_follows_links_witness :
  exists data,
    sample_site ["one"] "http://x.test/1" JNull = Success data
    /\ In "http://x.test/2" (find_pagination_links (html data) "http://x.test/1").
Proof.
  refine (proj2 (crawl_follows_links (sample_site ["one"]) 5 JNull "http://x.test/1"
              {| visited_urls := ["http://x.test/2"; "http://x.test/1"];
                 all_results := [sample_page 1 "one"];
                 current_url := Some "http://x.test/2";
                 n_scraped := 1;
                 trace := [Visited "http://x.test/1"; Fetched "http://x.test/1";
                           Visited "http://x.test/2"; Fetched "http://x.test/2"] |}
              _)
            [] "http://x.test/1" "http://x.test/2" [] eq_refl).
  eapply reaches_break
    with (u := "http://x.test/2")
         (st := {| visited_urls := ["http://x.test/1"];
                   all_results := [sample_page 1 "one"];
                   current_url := Some "http://x.test/2";
                   n_scraped := 1;
                   trace := [Visited "http://x.test/1"; Fetched "http://x.test/1"] |});
    [|vm_compute; reflexivity|vm_compute; reflexivity].
  eapply turns_next with (st := initial_state "http://x.test/1")
                         (u := "http://x.test/1");
    [constructor | vm_compute; reflexivity | vm_compute; reflexivity].
Defined.

(** ** More on the combined document *)

Lemma string_app_assoc (a b c : string) : (a ++ b) ++ c = a ++ b ++ c.
Proof. induction a as [|x a IH]; simpl; [|rewrite IH]; reflexivity. Qed.

Lemma occurrences_around_separator sub b1 b2 :
  without_char (ascii_of_nat 10) sub = true -> sub <> EmptyString ->
  occurrences sub (b1 ++ (nl ++ nl ++ sub ++ nl ++ nl) ++ b2)
  = (occurrences sub b1 + occurrences sub sub + occurrences sub b2)%nat.
Proof.
  intros Hc Hne.
  replace (b1 ++ (nl ++ nl ++ sub ++ nl ++ nl) ++ b2)
    with (b1 ++ String (ascii_of_nat 10)
             (EmptyString ++ String (ascii_of_nat 10)
                (sub ++ String (ascii_of_nat 10)
                   (EmptyString ++ String (ascii_of_nat 10) b2)))).
  - rewrite !(occurrences_before_char _ _ Hc).
    assert (H0 : occurrences sub EmptyString = 0%nat)
      by (destruct sub; [contradiction|reflexivity]).
    rewrite H0. lia.
  - unfold nl, chr. simpl. now rewrite string_app_assoc.
Qed.

Lemma occurrences_join sub parts :
  without_char (ascii_of_nat 10) sub = true -> sub <> EmptyString ->
  occurrences sub sub = 1%nat ->
  occurrences sub (join (nl ++ nl ++ sub ++ nl ++ nl) parts)
  = (list_sum (map (occurrences sub) parts) + (List.length parts - 1))%nat.
Proof.
  intros Hc Hne H1. induction parts as [|p [|q parts] IH].
  - simpl. destruct sub; [contradiction|reflexivity].
  - simpl. lia.
  - change (join (nl ++ nl ++ sub ++ nl ++ nl) (p :: q :: parts))
      with (p ++ (nl ++ nl ++ sub ++ nl ++ nl)
              ++ join (nl ++ nl ++ sub ++ nl ++ nl) (q :: parts)).
    rewrite occurrences_around_separator, IH, H1 by assumption.
    simpl. lia.
Qed.

(** X10.  The combined markdown of any number of pages has the line of the
    page break once between two consecutive page blocks, besides the times the
    blocks have it themselves; the combined HTML and the combined cleaned
    HTML have their comment of the page break in the same way.  With no
    page, the three texts are empty. *)
Theorem page_breaks_of_pages results :
  occurrences PAGE_BREAK (combined_markdown results)
  = (list_sum (map (occurrences PAGE_BREAK) (combined_markdown_parts results))
     + (List.length results - 1))%nat
  /\ occurrences "<!-- PAGE BREAK -->" (combined_html results)
     = (list_sum (map (fun ir => occurrences "<!-- PAGE BREAK -->"
                                   (html_header (fst ir) (snd ir) ++ html (snd ir)))
                      (enumerate_from 0 results))
        + (List.length results - 1))%nat
  /\ occurrences "<!-- PAGE BREAK -->" (combined_cleaned_html results)
     = (list_sum (map (fun ir => occurrences "<!-- PAGE BREAK -->"
                                   (html_header (fst ir) (snd ir)
                                    ++ cleaned_html (snd ir)))
                      (enumerate_from 0 results))
        + (List.length results - 1))%nat
  /\ (results = [] ->
      combined_markdown results = EmptyString
      /\ combined_html results = EmptyString
      /\ combined_cleaned_html results = EmptyString).
Proof.
  assert (Hlen : forall (X : Type) i (l : list X),
             List.length (enumerate_from i l) = List.length l).
  { intros X i l. revert i. induction l; simpl; auto. }
  repeat split.
  - unfold combined_markdown.
    change markdown_separator with (nl ++ nl ++ PAGE_BREAK ++ nl ++ nl).
    rewrite occurrences_join by (reflexivity || discriminate).
    unfold combined_markdown_parts. now rewrite length_map, Hlen.
  - unfold combined_html.
    change html_separator with (nl ++ nl ++ "<!-- PAGE BREAK -->" ++ nl ++ nl).
    rewrite occurrences_join by (reflexivity || discriminate).
    now rewrite map_map, length_map, Hlen.
  - unfold combined_cleaned_html.
    change html_separator with (nl ++ nl ++ "<!-- PAGE BREAK -->" ++ nl ++ nl).
    rewrite occurrences_join by (reflexivity || discriminate).
    now rewrite map_map, length_map, Hlen.
  - now subst.
  - now subst.
  - now subst.
Qed.

Lemma dict_mem_set {A : Type} k k' (v : A) d :
  dict_mem k d = true -> dict_mem k (dict_set k' v d) = true.
Proof.
  unfold dict_mem. destruct (string_dec k k') as [->|Hne].
  - now rewrite dict_get_set_same.
  - now rewrite dict_get_set_other.
Qed.

(** the loop over the items of one page, for [media] and [links] *)
Lemma union_items {A : Type} k (items acc : list (string * A)) :
  NoDup (keys items) ->
  dict_get k (fold_left (fun acc kv => dict_set (fst kv) (snd kv) acc) items acc)
  = match dict_get k items with
    | Some v => Some v
    | None => dict_get k acc
    end.
Proof.
  revert acc. induction items as [|[k' v'] items IH]; simpl; intros acc Hnd; auto.
  inversion Hnd as [|? ? Hnot Hnd']; subst. rewrite IH by exact Hnd'.
  destruct (String.eqb k k') eqn:E.
  - apply String.eqb_eq in E. subst k'.
    apply dict_get_None in Hnot. rewrite Hnot. apply dict_get_set_same.
  - apply String.eqb_neq in E.
    destruct (dict_get k items); auto. now apply dict_get_set_other.
Qed.

(** X11.  In the union of [media] or of [links] over the pages a key has
    the value of the last page that has the key, and a key that no page has
    is absent. *)
Theorem union_last_page_wins field results k :
  (forall r, In r results -> NoDup (keys (field r))) ->
  (forall before r after v,
      results = (before ++ r :: after)%list ->
      dict_get k (field r) = Some v ->
      (forall r', In r' after -> dict_get k (field r') = None) ->
      dict_get k (union_dicts field results) = Some v)
  /\ ((forall r, In r results -> dict_get k (field r) = None) ->
      dict_get k (union_dicts field results) = None).
Proof.
  intros Hdict.
  assert (Hnone : forall rs acc,
             (forall r, In r rs -> NoDup (keys (field r))) ->
             (forall r, In r rs -> dict_get k (field r) = None) ->
             dict_get k (fold_left
                           (fun acc r =>
                              fold_left (fun acc kv => dict_set (fst kv) (snd kv) acc)
                                        (field r) acc) rs acc)
             = dict_get k acc).
  { induction rs as [|r rs IH]; simpl; intros acc Hnd Hk; auto.
    rewrite IH by auto. rewrite union_items by auto. now rewrite Hk by auto. }
  split.
  - intros before r after v -> Hv Hafter. unfold union_dicts.
    rewrite fold_left_app. simpl.
    rewrite Hnone.
    + rewrite union_items, Hv; auto. apply Hdict, in_or_app. right. now left.
    + intros r' Hr'. apply Hdict, in_or_app. right. now right.
    + exact Hafter.
  - intros Hk. unfold union_dicts. now rewrite Hnone.
Qed.

Lemma union_last_page_wins_witness :
  dict_get "images"
           (union_dicts media
              [sample_page_with 1 [] [("images", JStr "a")];
               sample_page_with 2 [] [("images", JStr "b")]])
  = Some (JStr "b").
Proof.
  refine (proj1 (union_last_page_wins media
                   [sample_page_with 1 [] [("images", JStr "a")];
                    sample_page_with 2 [] [("images", JStr "b")]]
                   "images" _)
                [sample_page_with 1 [] [("images", JStr "a")]]
                (sample_page_with 2 [] [("images", JStr "b")])
                [] (JStr "b") eq_refl eq_refl _).
  - intros r [<-|[<-|[]]]; simpl; (constructor; [intros []|constructor]).
  - intros r' [].
Defined.

Lemma coalesce_snoc vs v :
  coalesce (vs ++ [v])
  = Some match coalesce vs with
         | Some (JList l) => JList (l ++ [v])
         | Some w => JList [w; v]
         | None => v
         end.
Proof.
  destruct vs as [|v1 [|v2 vs]]; simpl.
  - destruct v; reflexivity.
  - destruct v1; reflexivity.
  - destruct v1; simpl; try reflexivity.
    now rewrite <- app_assoc.
Qed.

(** the loop over the structured data of one page *)
Lemma merge_items k (items acc : list (string * json)) :
  NoDup (keys items) ->
  dict_get k (fold_left merge_json_item items acc)
  = match dict_get k items with
    | Some v => Some match dict_get k acc with
                     | Some (JList l) => JList (l ++ [v])
                     | Some w => JList [w; v]
                     | None => v
                     end
    | None => dict_get k acc
    end.
Proof.
  revert acc. induction items as [|[k' v'] items IH]; simpl; intros acc Hnd; auto.
  inversion Hnd as [|? ? Hnot Hnd']; subst. rewrite IH by exact Hnd'.
  assert (Hset : forall w, dict_get k (dict_set k' w acc)
                           = if String.eqb k k' then Some w else dict_get k acc).
  { intros w. destruct (String.eqb k k') eqn:E.
    - apply String.eqb_eq in E. subst. apply dict_get_set_same.
    - apply String.eqb_neq in E. now apply dict_get_set_other. }
  destruct (String.eqb k k') eqn:E.
  - apply String.eqb_eq in E. subst k'. apply dict_get_None in Hnot. rewrite Hnot.
    destruct (dict_get k acc) as [[| | | |l|]|]; rewrite Hset; reflexivity.
  - destruct (dict_get k' acc) as [[| | | |l|]|];
      destruct (dict_get k items); rewrite ?Hset; reflexivity.
Qed.

(** X12.  In the combined JSON a key that one page has keeps the value of that
    page; a key that several pages have holds the list of their values in
    page order, which a first value that is itself a list begins; and
    [pagination_info] is the record of the crawl, whatever the pages have
    under that name. *)
Theorem combined_json_values n results k :
  (forall r, In r results -> NoDup (keys (json_data r))) ->
  dict_get k (combined_json n results)
  = if String.eqb k "pagination_info" then Some (pagination_info n results)
    else coalesce (values_of k results).
Proof.
  intros Hdict. unfold combined_json.
  destruct (String.eqb k "pagination_info") eqn:E.
  - apply String.eqb_eq in E. subst. apply dict_get_set_same.
  - apply String.eqb_neq in E. rewrite dict_get_set_other by exact E.
    assert (H : forall rs seen acc,
               (forall r, In r rs -> NoDup (keys (json_data r))) ->
               dict_get k acc = coalesce seen ->
               dict_get k (fold_left
                             (fun combined r =>
                                fold_left merge_json_item (json_data r) combined)
                             rs acc)
               = coalesce (seen ++ values_of k rs)).
    { induction rs as [|r rs IH]; simpl; intros seen acc Hnd Hacc.
      - now rewrite app_nil_r.
      - rewrite app_assoc. apply IH; auto.
        rewrite merge_items by auto.
        destruct (dict_get k (json_data r)) as [v|].
        + now rewrite coalesce_snoc, Hacc.
        + now rewrite app_nil_r. }
    apply (H results [] []); auto.
Qed.

Lemma combined_json_values_witness :
  dict_get "items"
           (combined_json 2 [sample_page_with 1 [("items", JStr "a")] [];
                             sample_page_with 2 [("items", JStr "b")] []])
  = Some (JList [JStr "a"; JStr "b"]).
Proof.
  refine (combined_json_values 2
            [sample_page_with 1 [("items", JStr "a")] [];
             sample_page_with 2 [("items", JStr "b")] []]
            "items" _).
  intros r [<-|[<-|[]]]; simpl; (constructor; [intros []|constructor]).
Defined.

(** ** More on the command lines *)








Section CommandLineFurther.
Variable json_loads : string -> option json.
Variable CRAWL4AI_AVAILABLE : bool.
Variable scrape_single_page : string -> json -> scrape_result page_data.

Local Abbreviation read_one := (read_argument json_loads).
Local Abbreviation read_all := (read_arguments json_loads).
Local Abbreviation run := (main json_loads CRAWL4AI_AVAILABLE scrape_single_page).






(** X15.  What the arguments after the URL leave behind: pagination is on when
    [--pagination] is among them, a strategy that counts as true is never
    replaced, and the page budget stays as it is when no argument is a
    max-pages option. *)
Theorem arguments_read args :
  forall a a',
    read_all a args = Some a' ->
    use_pagination a' = use_pagination a || mem_string "--pagination" args
    /\ (truthy (arg_strategy a) = true -> arg_strategy a' = arg_strategy a)
    /\ (forallb (fun arg => negb (startswith arg "--max-pages=")) args = true ->
        arg_max_pages a' = arg_max_pages a).
Proof.
  induction args as [|arg args IH]; intros a a'.
  - simpl. intros H. inversion H; subst. now rewrite orb_false_r.
  - cbn [read_arguments forallb].
    change (mem_string "--pagination" (arg :: args))
      with (String.eqb "--pagination" arg || mem_string "--pagination" args).
    destruct (read_one a arg) as [a1|] eqn:E; [|discriminate].
    intros H. destruct (IH _ _ H) as (Hp & Hs & Hm). clear IH.
    unfold read_argument in E. rewrite (String.eqb_sym "--pagination" arg).
    destruct (String.eqb arg "--pagination") eqn:Ep.
    + inversion E; subst a1. cbn [use_pagination arg_strategy arg_max_pages] in *.
      rewrite Hp, orb_true_r. split; [reflexivity|]. split; [exact Hs|].
      intros Hf. apply andb_prop in Hf. destruct Hf as [_ Hf]. auto.
    + rewrite orb_false_l. destruct (startswith arg "--max-pages=") eqn:Em.
      * destruct (py_int _); [|discriminate].
        inversion E; subst a1. cbn [use_pagination arg_strategy arg_max_pages] in *.
        split; [exact Hp|]. split; [exact Hs|]. discriminate.
      * cbn [negb andb]. destruct (truthy (arg_strategy a)) eqn:Et; cbn [negb] in E.
        -- inversion E; subst a1. auto.
        -- split; [|split; [discriminate|]].
           ++ destruct (json_loads arg); inversion E; subst a1; exact Hp.
           ++ destruct (json_loads arg); inversion E; subst a1; exact Hm.
Qed.

End CommandLineFurther.

Lemma arguments_read_witness :
  use_pagination {| arg_strategy := JNull; use_pagination := true;
                    arg_max_pages := 7 |}
  = use_pagination {| arg_strategy := JNull; use_pagination := false;
                      arg_max_pages := 5 |}
    || mem_string "--pagination" ["--max-pages=7"; "--pagination"].
Proof.
  refine (proj1 (arguments_read (fun _ => None) ["--max-pages=7"; "--pagination"]
                   {| arg_strategy := JNull; use_pagination := false;
                      arg_max_pages := 5 |}
                   {| arg_strategy := JNull; use_pagination := true;
                      arg_max_pages := 7 |} _)).
  vm_compute. reflexivity.
Defined.

(** ** Patterns that are plain words *)

Lemma compile_plain p : plain_pattern p = true -> compile p = literal_chain p.
Proof.
  unfold plain_pattern. induction p as [|a p IH]; [reflexivity|].
  cbn [all_chars]. intros H. apply andb_prop in H. destruct H as [Ha Hp].
  apply negb_true_iff in Ha. apply orb_false_iff in Ha. destruct Ha as [Ha Hbr].
  apply orb_false_iff in Ha. destruct Ha as [Hbs Hdot].
  cbn [compile literal_chain]. rewrite <- (IH Hp).
  rewrite Hbs, Hdot, Hbr. cbn [andb].
  destruct p as [|b [|c [|d p]]]; reflexivity.
Qed.

Lemma rmatch_literal_chain {R : Type} p :
  forall i s caps (k : nat -> string -> list string -> option R),
    rmatch no_flags (literal_chain p) i s caps k
    = if prefix p s
      then k (i + String.length p)%nat
             (substring (String.length p) (String.length s - String.length p) s) caps
      else None.
Proof.
  induction p as [|a p IH]; intros i s caps k.
  - cbn [literal_chain rmatch String.length]. rewrite Nat.add_0_r, Nat.sub_0_r.
    destruct s as [|b s]; [reflexivity|]. cbn [prefix].
    f_equal. cbn [substring String.length]. f_equal.
    clear. induction s as [|c s IH]; [reflexivity|]. cbn. now rewrite <- IH.
  - cbn [literal_chain rmatch]. destruct s as [|b s]; [reflexivity|].
    cbn [cset_match fold_case no_flags IGNORECASE prefix].
    destruct (ascii_dec a b) as [->|Hne].
    + rewrite Ascii.eqb_refl, IH. cbn [String.length substring].
      now rewrite Nat.add_succ_r.
    + destruct (Ascii.eqb b a) eqn:E; [|reflexivity].
      apply Ascii.eqb_eq in E. congruence.
Qed.

(** A search for a plain word is a test for a substring. *)
Lemma re_found_plain p s :
  plain_pattern p = true -> re_found no_flags (compile p) s = contains p s.
Proof.
  intros Hp. rewrite (compile_plain p Hp). unfold re_found, re_search.
  generalize 0%nat. induction s as [|a s IH]; intros i.
  - cbn [search_from contains]. unfold match_here. rewrite rmatch_literal_chain.
    destruct (prefix p EmptyString); reflexivity.
  - cbn [search_from contains]. unfold match_here. rewrite rmatch_literal_chain.
    destruct (prefix p (String a s)); [reflexivity|]. apply IH.
Qed.

(** X17.  The exclusion of an anchor is a test for seven words in its href
    and in its text, both lowercased; an excluded anchor leaves the candidates as
    they are, whatever its confidence: so an anchor whose href has a
    fragment sign is never recorded. *)
Theorem exclusion_is_substring_test href link_text :
  should_exclude href link_text
  = existsb (fun word => contains word (strip (lower href))
                         || contains word (lower (clean_text link_text)))
            ["current"; "active"; "disabled"; "javascript:"; "mailto:"; "tel:"; "#"]
  /\ (contains "#" (strip (lower href)) = true ->
      forall html base_url d, anchor_step html base_url d (href, link_text) = d).
Proof.
  assert (H : should_exclude href link_text
              = existsb (fun word => contains word (strip (lower href))
                                     || contains word (lower (clean_text link_text)))
                        ["current"; "active"; "disabled"; "javascript:"; "mailto:";
                         "tel:"; "#"]).
  { unfold should_exclude, exclude_patterns. cbv zeta. cbn [existsb].
    now rewrite !re_found_plain by reflexivity. }
  split; [exact H|]. intros Hfrag html base_url d. unfold anchor_step.
  destruct (negb (nonempty (strip href))); [reflexivity|].
  rewrite H. cbn [existsb]. rewrite Hfrag. now rewrite !orb_true_r.
Qed.

Lemma exclusion_is_substring_test_witness :
  anchor_step "<a href='#top'>Next page</a>" "http://x.test/1" []
              ("#top", "Next page")
  = [].
Proof.
  refine (proj2 (exclusion_is_substring_test "#top" "Next page") _
                "<a href='#top'>Next page</a>" "http://x.test/1" []).
  vm_compute. reflexivity.
Defined.

(** ** What a match can give *)

Section MatcherFacts.
Context {R : Type}.
Variable fl : flags.
(** what is known of a result; nothing is claimed of a failure *)
Variable ok : option R -> Prop.
Hypothesis ok_None : ok None.
(** what is known of the text and the groups when the continuation is called *)
Variable Inv : string -> list string -> Prop.
Hypothesis Inv_tail : forall a s caps, Inv (String a s) caps -> Inv s caps.

Lemma ok_or_else (x y : option R) :
  ok x -> ok y -> ok match x with Some v => Some v | None => y end.
Proof. destruct x; auto. Qed.

Lemma star_greedy_ok c s :
  forall i caps (k : nat -> string -> option R),
    Inv s caps -> (forall i' s', Inv s' caps -> ok (k i' s')) ->
    ok (star_greedy fl c i s k).
Proof.
  induction s as [|a s IH]; intros i caps k Hs Hk; cbn [star_greedy]; eauto.
  destruct (cset_match fl c a); eauto.
  apply ok_or_else; eauto.
Qed.

Lemma star_lazy_ok c s :
  forall i caps (k : nat -> string -> option R),
    Inv s caps -> (forall i' s', Inv s' caps -> ok (k i' s')) ->
    ok (star_lazy fl c i s k).
Proof.
  induction s as [|a s IH]; intros i caps k Hs Hk; cbn [star_lazy].
  - apply ok_or_else; eauto.
  - apply ok_or_else; eauto. destruct (cset_match fl c a); eauto.
Qed.

Lemma match_lit_Inv t :
  forall s s' caps, match_lit fl t s = Some s' -> Inv s caps -> Inv s' caps.
Proof.
  induction t as [|b t IH]; intros s s' caps; cbn [match_lit].
  - intros H. now inversion H.
  - destruct s as [|a s]; [discriminate|].
    destruct (Ascii.eqb _ _); [|discriminate]. eauto.
Qed.

(** A pattern gives what its continuation gives.  A pattern with groups
    needs the knowledge to outlast a further group. *)
Lemma rmatch_ok r :
  group_free r = true
  \/ (forall s caps x, Inv s caps -> Inv s (caps ++ [x])%list) ->
  forall i s caps (k : nat -> string -> list string -> option R),
    Inv s caps -> (forall i' s' caps', Inv s' caps' -> ok (k i' s' caps')) ->
    ok (rmatch fl r i s caps k).
Proof.
  induction r as [|c|c|c|c|t|r1 IH1 r2 IH2|r1 IH1 r2 IH2|r1 IH1| |];
    intros Hg i s caps k Hs Hk; cbn [rmatch]; eauto.
  - destruct s as [|a s]; auto. destruct (cset_match fl c a); eauto.
  - apply (star_greedy_ok c s i caps); auto.
  - destruct s as [|a s]; auto. destruct (cset_match fl c a); auto.
    apply (star_greedy_ok c s (S i) caps); eauto.
  - apply (star_lazy_ok c s i caps); auto.
  - destruct (match_lit fl t s) as [s'|] eqn:E; auto.
    apply Hk. eapply match_lit_Inv; eauto.
  - assert (Hg1 : group_free r1 = true
                  \/ (forall s caps x, Inv s caps -> Inv s (caps ++ [x])%list))
      by (destruct Hg as [Hg|Hg]; [cbn in Hg; apply andb_prop in Hg|]; tauto).
    assert (Hg2 : group_free r2 = true
                  \/ (forall s caps x, Inv s caps -> Inv s (caps ++ [x])%list))
      by (destruct Hg as [Hg|Hg]; [cbn in Hg; apply andb_prop in Hg|]; tauto).
    apply IH1; auto.
  - assert (Hg1 : group_free r1 = true
                  \/ (forall s caps x, Inv s caps -> Inv s (caps ++ [x])%list))
      by (destruct Hg as [Hg|Hg]; [cbn in Hg; apply andb_prop in Hg|]; tauto).
    assert (Hg2 : group_free r2 = true
                  \/ (forall s caps x, Inv s caps -> Inv s (caps ++ [x])%list))
      by (destruct Hg as [Hg|Hg]; [cbn in Hg; apply andb_prop in Hg|]; tauto).
    apply ok_or_else; auto.
  - destruct Hg as [Hg|Hg]; [discriminate|].
    apply IH1; auto.
  - destruct i; auto.
  - destruct (String.eqb s EmptyString || String.eqb s nl); auto.
Qed.

(** A pattern in front of a pattern, with the same knowledge. *)
Lemma cat_ok r X (k : nat -> string -> list string -> option R) :
  group_free r = true
  \/ (forall s caps x, Inv s caps -> Inv s (caps ++ [x])%list) ->
  (forall i s caps, Inv s caps -> ok (rmatch fl X i s caps k)) ->
  forall i s caps, Inv s caps -> ok (rmatch fl (Cat r X) i s caps k).
Proof.
  intros Hg HX i s caps Hs. cbn [rmatch]. apply rmatch_ok; auto.
Qed.
End MatcherFacts.

(** ** The button strategy *)

Lemma not_quote_char fl a :
  cset_match fl (CNotIn quotes) a = negb (existsb (Ascii.eqb a) quotes).
Proof.
  destruct fl as [[] []]; destruct a as [[] [] [] [] [] [] [] []]; reflexivity.
Qed.

Lemma all_not_quote fl t :
  all_chars (cset_match fl (CNotIn quotes)) t = true -> quote_free t = true.
Proof.
  unfold quote_free. induction t as [|a t IH]; cbn [all_chars]; auto.
  rewrite not_quote_char. intros H. apply andb_prop in H. destruct H as [-> H].
  auto.
Qed.

(** [c*] hands over a text that it has read character after character. *)
Lemma star_greedy_prefix {R : Type} fl (ok : option R -> Prop) c s :
  ok None ->
  forall i (k : nat -> string -> option R),
    (forall n s', all_chars (cset_match fl c) (substring 0 n s) = true ->
                  ok (k (i + n)%nat s')) ->
    ok (star_greedy fl c i s k).
Proof.
  intros ok_None. induction s as [|a s IH]; intros i k Hk; cbn [star_greedy].
  - rewrite <- (Nat.add_0_r i). apply Hk. reflexivity.
  - assert (H0 : ok (k i (String a s)))
      by (rewrite <- (Nat.add_0_r i); apply Hk; reflexivity).
    destruct (cset_match fl c a) eqn:E; [|exact H0].
    apply ok_or_else; [|exact H0].
    apply IH. intros n s' Hn. replace (S i + n)%nat with (i + S n)%nat by lia.
    apply Hk.
    cbn [substring all_chars]. now rewrite E.
Qed.

Lemma rmatch_group_star {R : Type} fl c rest i s caps
      (k : nat -> string -> list string -> option R) :
  rmatch fl (Cat (Group (Star c)) rest) i s caps k
  = star_greedy fl c i s
      (fun i' s' => rmatch fl rest i' s' (caps ++ [substring 0 (i' - i) s])%list k).
Proof. reflexivity. Qed.

(** A first group that reads characters other than quotes has no quote. *)
Lemma first_group_quote_free rest i0 i s :
  head_quote_free
    (rmatch IS_flags (Cat (Group (Star (CNotIn quotes))) rest) i s []
            (fun i' _ caps => Some ((i' - i0)%nat, caps))).
Proof.
  rewrite rmatch_group_star.
  apply (star_greedy_prefix IS_flags head_quote_free (CNotIn quotes) s I).
  intros n s' Hn. cbn [app].
  apply (rmatch_ok IS_flags head_quote_free I
           (fun _ caps => exists more, caps = substring 0 (i + n - i) s :: more)).
  - auto.
  - right. intros _ caps x [more ->]. exists (more ++ [x])%list. reflexivity.
  - exists []. reflexivity.
  - intros i' s'' caps' [more ->]. cbn [head_quote_free].
    replace (i + n - i)%nat with n by lia. eapply all_not_quote; eauto.
Qed.

(** The first group of the button pattern, the text of the handler, has
    neither quote character. *)
Lemma button_handler_quote_free i s :
  head_quote_free (match_here IS_flags button_pattern i s).
Proof.
  unfold match_here, button_pattern. cbn [cat lit ws].
  generalize i at 1. intros j. revert j s.
  repeat (intros j s;
          apply (cat_ok IS_flags head_quote_free I (fun _ caps => caps = []));
          [auto | left; reflexivity | | reflexivity];
          clear j s; intros j s ? ->; revert j s).
  intros j s. apply first_group_quote_free.
Qed.

Lemma findall_groups fl r (P : list string -> Prop) :
  (forall i s, match match_here fl r i s with
               | Some (_, caps) => P caps
               | None => True
               end) ->
  forall s i skip, Forall P (findall_from fl r i skip s).
Proof.
  intros Hm. induction s as [|a s IH]; intros i skip; cbn [findall_from].
  - destruct skip; [|constructor].
    specialize (Hm i EmptyString).
    destruct (match_here fl r i EmptyString) as [[n caps]|]; repeat constructor; auto.
  - destruct skip; [|apply IH].
    specialize (Hm i (String a s)).
    destruct (match_here fl r i (String a s)) as [[n caps]|];
      [constructor; auto|]; apply IH.
Qed.

(** No handler text has the quoted URL that the strategy looks for. *)
Lemma onclick_url_needs_quote s :
  quote_free s = true -> re_search no_flags onclick_url_pattern s = None.
Proof.
  assert (Htail : forall a t (caps : list string),
             quote_free (String a t) = true -> quote_free t = true).
  { intros a t _ H. unfold quote_free in *. cbn [all_chars] in H.
    apply andb_prop in H. tauto. }
  assert (Hhere : forall i t, quote_free t = true ->
                              match_here no_flags onclick_url_pattern i t = None).
  { intros i t Ht. unfold match_here, onclick_url_pattern. cbn [cat lit ws alt].
    revert Ht. generalize (@nil string). revert t. generalize i at 1.
    repeat (apply (cat_ok no_flags (fun x => x = None) eq_refl
                          (fun t _ => quote_free t = true) Htail);
            [right; auto|]).
    intros j t caps Ht. cbn [rmatch]. destruct t as [|a t]; [reflexivity|].
    unfold quote_free in Ht. cbn [all_chars] in Ht.
    apply andb_prop in Ht. destruct Ht as [Ha _].
    apply negb_true_iff in Ha.
    change (cset_match no_flags (CIn quotes) a) with (existsb (Ascii.eqb a) quotes).
    now rewrite Ha. }
  unfold re_search. generalize 0%nat.
  induction s as [|a s IH]; intros i Hs; cbn [search_from]; rewrite Hhere by exact Hs.
  - reflexivity.
  - apply IH. eapply (Htail a s []); eauto.
Qed.

Lemma button_candidates_id html base_url d :
  button_candidates html base_url d = d.
Proof.
  unfold button_candidates, find_pairs, re_findall.
  assert (HF : Forall (fun caps => quote_free (fst (pair_of_groups caps)) = true)
                      (findall_from IS_flags button_pattern 0 0 html)).
  { apply findall_groups. intros i s.
    pose proof (button_handler_quote_free i s) as Hq.
    destruct (match_here IS_flags button_pattern i s) as [[n caps]|]; [|exact I].
    cbn [head_quote_free] in Hq.
    destruct caps as [|g [|b [|c caps]]]; try contradiction; auto. }
  induction HF as [|caps l Hq _ IH]; [reflexivity|].
  cbn [map fold_left]. rewrite <- IH at 2. f_equal.
  unfold button_step. destruct (pair_of_groups caps) as [onclick_attr button_text].
  cbn [fst] in Hq. rewrite (onclick_url_needs_quote _ Hq).
  now destruct (existsb _ PAGINATION_PATTERNS).
Qed.

(** X18.  The button strategy never records anything: the pattern that finds the
    buttons takes the handler up to its first quote character, and the
    pattern that looks for the URL in the handler needs a quoted text.  The
    candidates are those of the anchors and of the forms. *)
Theorem button_strategy_records_nothing html base_url d :
  button_candidates html base_url d = d
  /\ pagination_candidates html base_url
     = form_candidates html base_url (anchor_candidates html base_url).
Proof.
  split; [apply button_candidates_id|].
  unfold pagination_candidates. now rewrite button_candidates_id.
Qed.

(** ** Where the links come from *)

Lemma In_keys_dict_get {A : Type} k (d : list (string * A)) :
  In k (keys d) -> exists v, dict_get k d = Some v.
Proof.
  intros H. destruct (dict_get k d) as [v|] eqn:E; [eauto|].
  apply dict_get_None in E. contradiction.
Qed.

Lemma top_candidates_keys u (d : candidates) :
  In u (map fst (top_candidates d)) -> In u (keys d).
Proof.
  unfold top_candidates, keys. intros H.
  apply in_map_iff in H. destruct H as (p & Hp & Hin).
  apply filter_In in Hin. destruct Hin as [Hin _].
  apply in_map_iff. exists p. split; [exact Hp|].
  apply (Permutation_in _ (sorted_desc_perm d)).
  rewrite <- (firstn_skipn 3 (sorted_desc d)). apply in_or_app. now left.
Qed.

Lemma form_candidates_origin html base_url (d : candidates) u :
  In u (keys (form_candidates html base_url d)) ->
  In u (keys d) \/ form_link html base_url u.
Proof.
  unfold form_candidates.
  apply (fold_left_invariant_In
           (fun d' : candidates =>
              In u (keys d') -> In u (keys d) \/ form_link html base_url u));
    [|auto].
  intros d' [action page_value] Hin IH. unfold form_step.
  destruct (isdigit page_value) eqn:Hd; [|exact IH].
  unfold record_new.
  destruct (dict_mem _ d') eqn:Hm; [exact IH|].
  rewrite keys_dict_set, Hm. intros H. apply in_app_or in H.
  destruct H as [H|[<-|[]]]; [auto|].
  right. exists action, page_value. auto.
Qed.

(** X19.  The detector invents no link: a URL that it returns is the resolved
    href of an anchor of the page, which is not excluded, has a confidence
    of 5 or more and does not lead to the page itself, or it is the page
    URL built from a form of the page. *)
Theorem links_come_from_the_page html base_url u :
  In u (find_pagination_links html base_url) ->
  (u <> base_url
   /\ exists href link_text,
       recorded_anchor html base_url href link_text
       /\ urljoin base_url href = u
       /\ 5 <= anchor_confidence html href link_text)
  \/ form_link html base_url u.
Proof.
  unfold find_pagination_links. intros H. apply top_candidates_keys in H.
  unfold pagination_candidates in H. rewrite button_candidates_id in H.
  apply form_candidates_origin in H. destruct H as [H|H]; [left|now right].
  apply In_keys_dict_get in H. destruct H as [c Hc]. split.
  - intros ->. rewrite anchor_candidates_not_base in Hc. discriminate.
  - destruct (anchor_candidates_origin _ _ _ _ Hc) as (href & link_text & Hr & Hu & Hconf).
    exists href, link_text. split; [exact Hr|]. split; [exact Hu|].
    destruct Hr as (_ & _ & _ & Hpos & _).
    destruct (anchor_confidence_range html href link_text) as [[H0|H5] _]; lia.
Qed.

Lemma links_come_from_the_page_witness :
  ("http://x.test/2" <> "http://x.test/1"
   /\ exists href link_text,
       recorded_anchor "<a href='/2'>Next page</a>" "http://x.test/1" href link_text
       /\ urljoin "http://x.test/1" href = "http://x.test/2"
       /\ 5 <= anchor_confidence "<a href='/2'>Next page</a>" href link_text)
  \/ form_link "<a href='/2'>Next page</a>" "http://x.test/1" "http://x.test/2".
Proof.
  refine (links_come_from_the_page "<a href='/2'>Next page</a>" "http://x.test/1"
                                   "http://x.test/2" _).
  vm_compute. left. reflexivity.
Defined.
